(** * newscat: feature writers of package [model]

    A shallow embedding of the feature-vector writer, the chunk feature
    encoder and the boost feature encoder (package [model], second document
    of [src/util/terminal.go]), with the properties of the specification
    stated and proved against it.

    Conventions.
    - Go's [int] is a 64-bit two's complement integer: it is a [Z] and every
      arithmetic operation of the source goes through [wrap].
    - Go's [float32] is IEEE 754 binary32: a [spec_float] at precision 24 and
      maximal exponent 128, with the conversion from [int] and the division
      rounding to nearest even.
    - A run-time panic is an explicit result: the encoders live in a state
      and error monad over the writer.
    - Pointers that the source only compares ([*html.Chunk], the block node)
      are addresses; a nil slice or pointer is [None]. *)

From Stdlib Require Import ZArith Lia Floats.SpecFloat.
From stdpp Require Import gmap strings list.

Open Scope Z_scope.

(** ** Machine integers *)

Definition min_int : Z := - 2 ^ 63.
Definition max_int : Z := 2 ^ 63 - 1.

Definition wrap (z : Z) : Z := (z + 2 ^ 63) mod 2 ^ 64 - 2 ^ 63.

Definition int_add (a b : Z) : Z := wrap (a + b).
Definition int_sub (a b : Z) : Z := wrap (a - b).

(** [a / b] on [int]: truncation towards zero, a run-time panic when the
    divisor is zero ([None]), and wrap-around for [min_int / -1]. *)
Definition int_quot (a b : Z) : option Z :=
  if b =? 0 then None else Some (wrap (Z.quot a b)).

(** [len(s)] as an [int]. *)
Definition len {A : Type} (s : list A) : Z := Z.of_nat (length s).

(** ** Single precision floats *)

Definition float32 : Type := spec_float.

Module F32.
Definition prec : Z := 24.
Definition emax : Z := 128.

(** The conversion [float32(z)] of an [int]. *)
Definition of_int (z : Z) : float32 := binary_normalize prec emax z 0 false.

Definition div (x y : float32) : float32 := SFdiv prec emax x y.

Definition zero : float32 := S754_zero false.
Definition one : float32 := of_int 1.
End F32.

(** ** Panics and the encoder monad *)

Inductive panic : Type :=
  | PartiallyFilled      (* panic("partially filled feature") *)
  | IndexOutOfRange      (* runtime error: index out of range *)
  | DivideByZero.        (* runtime error: integer divide by zero *)

Inductive result (A : Type) : Type :=
  | Ok (a : A)
  | Panic (p : panic).

Arguments Ok {A} a.
Arguments Panic {A} p.

(** [feature]: a [[]float32] slice, its elements and the capacity left
    behind them ([cap = len + spare]). *)
Record feature : Type := mkFeature {
  elems : list float32;
  spare : nat
}.

Definition cap (f : feature) : Z := len (elems f) + Z.of_nat (spare f).

(** [fw_feature] is the field [feature] of the source, [None] when nil. *)
Record featureWriter : Type := mkWriter {
  fw_feature : option feature;
  Pos : Z
}.

Definition M (A : Type) : Type := featureWriter -> result (A * featureWriter).

Global Instance M_ret : MRet M := fun A a fw => Ok (a, fw).

Global Instance M_bind : MBind M := fun A B k m fw =>
  match m fw with
  | Ok (a, fw') => k a fw'
  | Panic p => Panic p
  end.

Global Instance M_throw : MThrow panic M := fun A p _ => Panic p.

(** ** The feature writer *)

(** The value handed to [write]: the dynamic type of the [interface{}]
    argument. The type switch has no default case, so a value of any other
    type is [VOther] and stores nothing. *)
Inductive iface : Type :=
  | VInt (z : Z)
  | VFloat32 (f : float32)
  | VBool (b : bool)
  | VOther.

Definition Assign (f : option feature) : M unit :=
  fun fw =>
    match fw_feature fw with
    | Some cur =>
        if negb (Pos fw =? cap cur)
        then Panic PartiallyFilled
        else Ok (tt, mkWriter f 0)
    | None => Ok (tt, mkWriter f 0)
    end.

Definition Skip (n : Z) : M unit :=
  fun fw => Ok (tt, mkWriter (fw_feature fw) (int_add (Pos fw) n)).

(** The component a value of each dynamic type leaves behind. *)
Definition store (val : iface) (old : float32) : float32 :=
  match val with
  | VInt z => F32.of_int z
  | VFloat32 f => f
  | VBool b => if b then F32.one else F32.zero
  | VOther => old
  end.

(** [comp := &fw.feature[fw.Pos+off]] is bounds-checked before the type
    switch runs; a nil slice has length 0. *)
Definition write (val : iface) (off skip : Z) : M unit :=
  fun fw =>
    let idx := int_add (Pos fw) off in
    match fw_feature fw with
    | Some v =>
        if (0 <=? idx) && (idx <? len (elems v))
        then
          let i := Z.to_nat idx in
          let old := default F32.zero (elems v !! i) in
          let fw' := mkWriter (Some (mkFeature (<[i := store val old]> (elems v)) (spare v)))
                              (Pos fw) in
          if 0 <? skip then Skip skip fw' else Ok (tt, fw')
        else Panic IndexOutOfRange
    | None => Panic IndexOutOfRange
    end.

Definition Write (val : iface) : M unit := write val 0 1.

Definition WriteAt (val : iface) (off : Z) : M unit := write val off 0.

(** ** The document model read by the encoders

    The packages [html] and [util] and the [cluster] type are declared
    outside the source file; the records below hold the fields the
    encoders read, typed as the specification describes them and as the
    encoders use them. *)

Module util.
(** Modelled from the spec: the declaration of [util.Text] is missing. Its
    "ordinal text statistics (word count, sentence count)" are [int]s,
    written through [write]'s [int] case. *)
Record Text : Type := mkText {
  Words : Z;
  Sentences : Z
}.
End util.

Module html.
(** Modelled from the spec: the declaration of the node type is missing.
    The element node behind a chunk has the "underlying tag name and
    optional parent tag name": [Data], and [Parent], which is nil at the
    root. *)
#[warnings="-register-all"]
Inductive Node : Type := mkNode {
  Data : string;
  Parent : option Node
}.

(** Modelled from the spec: the declaration of [html.TextStat] is
    missing. It has a "word count, sentence count, and an occurrence
    count": three [int]s, which the encoders write through [write]'s [int]
    case and convert with [float32(...)] where they divide them as
    floats. *)
Record TextStat : Type := mkTextStat {
  Words : Z;
  Sentences : Z;
  Count : Z
}.

(** Modelled from the spec: what the "previous and next chunk in document
    order" are dereferenced for, their block identity and their text. *)
Record Neighbour : Type := mkNeighbour {
  nBlock : positive;
  nText : util.Text
}.

(** Modelled from the spec: the declaration of [html.Chunk] is missing.
    [Addr] is the identity of the [*html.Chunk] pointer and [Block] that of
    the block node, both only compared; [SiblingTypes] is what
    [GetSiblingTypes()] returns; [LinkText], whose type the source does not
    show, is the interface value handed to [write]. *)
Record Chunk : Type := mkChunk {
  Addr : positive;
  Prev : option Neighbour;
  Next : option Neighbour;
  Text : util.Text;
  Base : Node;
  Block : positive;
  Classes : list string;
  Ancestors : Z;
  LinkText : iface;
  SiblingTypes : list string
}.
End html.

(** [m[k]] on a Go map: the zero value when the key is absent. *)
Definition map_index (m : gmap string Z) (k : string) : Z := default 0 (m !! k).

(** ** The chunk feature encoder *)

Definition chunkFeatureCap : Z := 36.
Definition boostFeatureCap : Z := 10.

Definition elementTypes : gmap string Z :=
  list_to_map
    [("p", 0); ("a", 1); ("div", 2);
     ("h1", 3); ("h2", 3); ("h3", 3); ("h4", 3); ("h5", 3); ("h6", 3)]%string.

Definition WriteElementType (chunk : html.Chunk) : M unit :=
  WriteAt (VBool true) (map_index elementTypes (html.Data (html.Base chunk))) ;;
  Skip 4.

Definition parentTypes : gmap string Z :=
  list_to_map [("p", 0); ("span", 1); ("div", 2); ("li", 3)]%string.

Definition WriteParentType (chunk : html.Chunk) : M unit :=
  match html.Parent (html.Base chunk) with
  | Some parent => WriteAt (VBool true) (map_index parentTypes (html.Data parent))
  | None => mret tt
  end ;;
  Skip 4.

(** The loop of [WriteSiblingTypes]: the running [count] and the [types]
    map after one more sibling. *)
Definition siblingStep (acc : Z * gmap string Z) (siblingType : string) : Z * gmap string Z :=
  let '(count, types) := acc in
  (int_add count 1,
   match types !! siblingType with
   | Some val => <[siblingType := int_add val 1]> types
   | None => types
   end).

Definition siblingCounts (siblings : list string) : Z * gmap string Z :=
  foldl siblingStep (0, list_to_map [("a", 0); ("p", 0); ("img", 0)]%string) siblings.

Definition WriteSiblingTypes (chunk : html.Chunk) : M unit :=
  let '(count, types) := siblingCounts (html.SiblingTypes chunk) in
  Write (VInt count) ;;
  Write (VInt (map_index types "a")) ;;
  Write (VInt (map_index types "p")) ;;
  Write (VInt (map_index types "img")) ;;
  if 0 <? count
  then
    Write (VFloat32 (F32.div (F32.of_int (map_index types "a")) (F32.of_int count))) ;;
    Write (VFloat32 (F32.div (F32.of_int (map_index types "p")) (F32.of_int count))) ;;
    Write (VFloat32 (F32.div (F32.of_int (map_index types "img")) (F32.of_int count)))
  else Skip 3.

Section ChunkEncoder.

(** The ancestor bit masks are constants of package [html], declared
    outside the source file. *)
Variables AncestorArticle AncestorAside AncestorBlockquote AncestorList : Z.

Definition WriteAncestors (chunk : html.Chunk) : M unit :=
  Write (VBool (negb (Z.land (html.Ancestors chunk) AncestorArticle =? 0))) ;;
  Write (VBool (negb (Z.land (html.Ancestors chunk) AncestorAside =? 0))) ;;
  Write (VBool (negb (Z.land (html.Ancestors chunk) AncestorBlockquote =? 0))) ;;
  Write (VBool (negb (Z.land (html.Ancestors chunk) AncestorList =? 0))).

Definition WriteTextStat (chunk : html.Chunk) : M unit :=
  Write (VInt (util.Words (html.Text chunk))) ;;
  Write (VInt (util.Sentences (html.Text chunk))) ;;
  Write (html.LinkText chunk).

Definition WriteTextStatSiblings (chunk : html.Chunk) : M unit :=
  match html.Prev chunk with
  | Some prev =>
      Write (VBool (bool_decide (html.nBlock prev = html.Block chunk))) ;;
      Write (VInt (util.Words (html.nText prev))) ;;
      Write (VInt (util.Sentences (html.nText prev)))
  | None => Skip 3
  end ;;
  match html.Next chunk with
  | Some next =>
      Write (VBool (bool_decide (html.nBlock next = html.Block chunk))) ;;
      Write (VInt (util.Words (html.nText next))) ;;
      Write (VInt (util.Sentences (html.nText next)))
  | None => Skip 3
  end.

(** The loop of [WriteClassStat]. Both quotients are integer divisions:
    either one panics on a zero [Count]. *)
Fixpoint bestClassStat (classes : gmap string html.TextStat) (cs : list string)
    (best : option html.TextStat) : result (option html.TextStat) :=
  match cs with
  | [] => Ok best
  | class :: rest =>
      match classes !! class with
      | Some stat =>
          match best with
          | None => bestClassStat classes rest (Some stat)
          | Some b =>
              match int_quot (html.Words stat) (html.Count stat),
                    int_quot (html.Words b) (html.Count b) with
              | Some q, Some qb =>
                  bestClassStat classes rest (if qb <? q then Some stat else Some b)
              | _, _ => Panic DivideByZero
              end
          end
      | None => bestClassStat classes rest best
      end
  end.

(** A computation that leaves the writer alone. *)
Definition lift {A : Type} (r : result A) : M A :=
  fun fw => match r with Ok a => Ok (a, fw) | Panic p => Panic p end.

Definition WriteClassStat (chunk : html.Chunk) (classes : gmap string html.TextStat) : M unit :=
  best ← lift (bestClassStat classes (html.Classes chunk) None);
  match best with
  | Some best =>
      Write (VBool true) ;;
      Write (VFloat32 (F32.div (F32.of_int (html.Words best)) (F32.of_int (html.Count best)))) ;;
      Write (VFloat32 (F32.div (F32.of_int (html.Sentences best)) (F32.of_int (html.Count best))))
  | None =>
      Write (VBool false) ;;
      Skip 2
  end.

Definition WriteClusterStat (chunk : html.Chunk) (clusters : gmap positive html.TextStat) : M unit :=
  match clusters !! html.Addr chunk with
  | Some stat =>
      Write (VInt (html.Words stat)) ;;
      Write (VInt (html.Sentences stat)) ;;
      Write (VInt (html.Count stat)) ;;
      Write (VFloat32 (F32.div (F32.of_int (html.Words stat)) (F32.of_int (html.Count stat)))) ;;
      Write (VFloat32 (F32.div (F32.of_int (html.Sentences stat)) (F32.of_int (html.Count stat))))
  | None => Skip 5
  end.

(** One encoding pass over a chunk: the eight sub-encoders in the order
    the source declares them. *)
Definition chunkPass (chunk : html.Chunk) (classes : gmap string html.TextStat)
    (clusters : gmap positive html.TextStat) : M unit :=
  WriteElementType chunk ;;
  WriteParentType chunk ;;
  WriteSiblingTypes chunk ;;
  WriteAncestors chunk ;;
  WriteTextStat chunk ;;
  WriteTextStatSiblings chunk ;;
  WriteClassStat chunk classes ;;
  WriteClusterStat chunk clusters.

End ChunkEncoder.

(** ** The boost feature encoder *)

(** Modelled from the spec: the declaration of [cluster] is missing. It is
    "an ordered chunk membership list" of chunk pointers and "a parallel
    per-chunk score list" of [float32]s. *)
Record cluster : Type := mkCluster {
  Chunks : list positive;
  Scores : list float32
}.

(** The identity search of [WriteCluster], from index [i] over the chunks
    not yet looked at. *)
Fixpoint findChunk (chunks : list positive) (chunk : positive) (i : Z) : Z :=
  match chunks with
  | [] => i
  | c :: rest => if bool_decide (c = chunk) then i else findChunk rest chunk (int_add i 1)
  end.

(** [s[i]] on a slice of scores, bounds-checked. *)
Definition index (s : list float32) (i : Z) : M float32 :=
  if (0 <=? i) && (i <? len s)
  then match s !! Z.to_nat i with
       | Some x => mret x
       | None => mthrow IndexOutOfRange
       end
  else mthrow IndexOutOfRange.

Section BoostEncoder.

(** [cluster.Score()], [Text.Similarity] and the [In] method of the two
    class matchers are declared outside the source file. *)
Variable Score : cluster -> float32.
Variable Similarity : util.Text -> util.Text -> float32.
Variables goodQualClass poorQualClass : string -> bool.

Definition WriteChunk (chunk : html.Chunk) : M unit :=
  let goodQual := foldl (fun acc class => acc || goodQualClass class) false (html.Classes chunk) in
  let poorQual := foldl (fun acc class => acc || poorQualClass class) false (html.Classes chunk) in
  Write (html.LinkText chunk) ;;
  Write (VInt (util.Words (html.Text chunk))) ;;
  Write (VInt (util.Sentences (html.Text chunk))) ;;
  Write (VBool goodQual) ;;
  Write (VBool poorQual).

Definition WriteCluster (chunk : html.Chunk) (cl : cluster) : M unit :=
  let i := findChunk (Chunks cl) (html.Addr chunk) 0 in
  Write (VFloat32 (Score cl)) ;;
  own ← index (Scores cl) i;
  Write (VFloat32 own) ;;
  (if 0 <? i
   then prev ← index (Scores cl) (int_sub i 1); Write (VFloat32 prev)
   else Write (VInt (-10))) ;;
  (if i <? int_sub (len (Chunks cl)) 2
   then next ← index (Scores cl) (int_add i 1); Write (VFloat32 next)
   else Write (VInt (-10))).

Definition isHeadline (tag : string) : bool :=
  bool_decide (tag = "h1"%string) || bool_decide (tag = "h2"%string)
  || bool_decide (tag = "h3"%string).

Definition WriteTitleSimilarity (chunk : html.Chunk) (title : util.Text) : M unit :=
  if isHeadline (html.Data (html.Base chunk))
  then Write (VFloat32 (Similarity (html.Text chunk) title))
  else Skip 1.

End BoostEncoder.

(** ** The vocabulary of the statements, and sample data *)

(** How often the tag [t] occurs among [l]. *)
Definition occurrences (t : string) (l : list string) : Z :=
  len (filter (fun x => x = t) l).

(** Every class statistic the chunk's classes reach has a non-zero
    occurrence count, so that no quotient of [WriteClassStat]'s loop divides
    by zero. *)
Definition counted (classes : gmap string html.TextStat) (cs : list string) : bool :=
  forallb
    (fun class =>
       match classes !! class with
       | Some stat => negb (html.Count stat =? 0)
       | None => true
       end) cs.

(** A writer bound to the vector [l] (with [sp] spare components) at
    cursor [p]. *)
Definition at_ (l : list float32) (sp : nat) (p : Z) : featureWriter :=
  mkWriter (Some (mkFeature l sp)) p.

(** The value a slot holds, [None] outside the vector. *)
Definition slot (l : list float32) (i : Z) : option float32 :=
  if 0 <=? i then l !! Z.to_nat i else None.

(** The vector after [val] was written at index [i]. *)
Definition put (l : list float32) (i : Z) (val : iface) : list float32 :=
  <[Z.to_nat i := store val (default F32.zero (l !! Z.to_nat i))]> l.

(** [advances m k]: on a bound vector with [k] components left from the
    cursor on, [m] completes, moves the cursor by exactly [k] and keeps the
    vector's length and spare capacity. *)
Definition advances (m : M unit) (k : Z) : Prop :=
  forall l sp p,
    0 <= p -> p + k <= len l -> len l <= max_int ->
    exists l', m (at_ l sp p) = Ok (tt, at_ l' sp (p + k)) /\ len l' = len l.

(** [advances_or_divides m k]: as [advances m k], but for a run cut short
    by an integer division by zero. *)
Definition advances_or_divides (m : M unit) (k : Z) : Prop :=
  forall l sp p,
    0 <= p -> p + k <= len l -> len l <= max_int ->
    (exists l', m (at_ l sp p) = Ok (tt, at_ l' sp (p + k)) /\ len l' = len l)
    \/ m (at_ l sp p) = Panic DivideByZero.

(** The [types] map with its three counters. *)
Definition typesOf (a p img : Z) : gmap string Z :=
  list_to_map [("a", a); ("p", p); ("img", img)]%string.

Definition bump (t x : string) (n : Z) : Z :=
  if bool_decide (x = t) then int_add n 1 else n.

(** The statistics the chunk's classes reach, in class order. *)
Definition found (classes : gmap string html.TextStat) (cs : list string) : list html.TextStat :=
  omap (fun class => classes !! class) cs.

(** The integer quotient the loop compares. *)
Definition wordsPerCount (stat : html.TextStat) : Z :=
  wrap (Z.quot (html.Words stat) (html.Count stat)).

(** One round of the loop on a statistic with non-zero count. *)
Definition pick (best : option html.TextStat) (stat : html.TextStat) : option html.TextStat :=
  match best with
  | None => Some stat
  | Some b => if wordsPerCount b <? wordsPerCount stat then Some stat else Some b
  end.

(** The sentinel written where a neighbour's score is not read. *)
Definition sentinel : float32 := F32.of_int (-10).

(** [writes_within m k]: [advances m k], and no slot outside the [k] slots
    from the cursor on is changed. *)
Definition writes_within (m : M unit) (k : Z) : Prop :=
  forall l sp p,
    0 <= p -> p + k <= len l -> len l <= max_int ->
    exists l',
      m (at_ l sp p) = Ok (tt, at_ l' sp (p + k))
      /\ len l' = len l
      /\ forall j, j < p \/ p + k <= j -> slot l' j = slot l j.

(** [writes_slot m k d v]: [writes_within m k], and the slot at offset [d]
    from the cursor holds [v] afterwards. *)
Definition writes_slot (m : M unit) (k d : Z) (v : float32) : Prop :=
  forall l sp p,
    0 <= p -> p + k <= len l -> len l <= max_int ->
    exists l',
      m (at_ l sp p) = Ok (tt, at_ l' sp (p + k))
      /\ len l' = len l
      /\ slot l' (p + d) = Some v
      /\ forall j, j < p \/ p + k <= j -> slot l' j = slot l j.

(** The component of a boolean: 1.0 or 0.0. *)
Definition flag (b : bool) : float32 := if b then F32.one else F32.zero.

(** A float that is a number: neither an infinity nor a NaN. *)
Definition finite (f : float32) : bool :=
  match f with
  | S754_zero _ | S754_finite _ _ _ => true
  | S754_infinity _ | S754_nan => false
  end.

(** The three slots of one neighbour, from slot [q] on. *)
Definition neighbourSlots (o : option html.Neighbour) (blk : positive)
    (l l' : list float32) (q : Z) : Prop :=
  match o with
  | Some n =>
      slot l' q = Some (flag (bool_decide (html.nBlock n = blk)))
      /\ slot l' (q + 1) = Some (F32.of_int (util.Words (html.nText n)))
      /\ slot l' (q + 2) = Some (F32.of_int (util.Sentences (html.nText n)))
  | None =>
      slot l' q = slot l q /\ slot l' (q + 1) = slot l (q + 1)
      /\ slot l' (q + 2) = slot l (q + 2)
  end.

(** A statistic without occurrences. *)
Definition uncounted (stat : html.TextStat) : Prop := html.Count stat = 0.

(** The siblings that are neither anchors, paragraphs nor images. *)
Definition otherSiblings (l : list string) : list string :=
  filter (fun x => x <> "a"%string /\ x <> "p"%string /\ x <> "img"%string) l.

(** The tags of the six heading levels. *)
Definition headings : list string := ["h1"; "h2"; "h3"; "h4"; "h5"; "h6"]%string.

Module Sample.
(** A zeroed chunk vector ([chunkFeature]) and boost vector. *)
Definition chunkVec : list float32 := replicate 36 F32.zero.
Definition boostVec : list float32 := replicate 10 F32.zero.

Definition text : util.Text := util.mkText 3 1.

Definition chunk (addr : positive) (tag : string) (parent : option string)
    (classes siblings : list string) : html.Chunk :=
  html.mkChunk addr None None text
    (html.mkNode tag (option_map (fun t => html.mkNode t None) parent))
    9%positive classes 0 (VInt 0) siblings.

Definition h2 : html.Chunk := chunk 1 "h2" None [] [].
Definition span : html.Chunk := chunk 2 "span" (Some "ul"%string) ["a"; "b"]%string [].
Definition para : html.Chunk := chunk 3 "p" (Some "div"%string) ["b"]%string ["a"; "p"; "a"; "br"]%string.

Definition classes : gmap string html.TextStat :=
  list_to_map [("a", html.mkTextStat 3 1 2); ("b", html.mkTextStat 7 2 4)]%string.

Definition clusters : gmap positive html.TextStat :=
  {[ 3%positive := html.mkTextStat 12 3 2 ]}.

Definition scores : list float32 :=
  [F32.of_int 5; F32.of_int 6; F32.of_int 7; F32.of_int 8].

(** A cluster of four chunks: [h2], [span], [para] and a fourth; and a
    chunk outside it. *)
Definition fourth : html.Chunk := chunk 4 "div" None [] [].
Definition outsider : html.Chunk := chunk 7 "p" None [] [].
Definition four : cluster := mkCluster [1; 2; 3; 4]%positive scores.

(** Four class statistics, with the integer quotients 1, 1, 2 and 2. *)
Definition classes4 : gmap string html.TextStat :=
  <["c" := html.mkTextStat 9 1 4]> (<["d" := html.mkTextStat 5 1 2]> classes).

(** A cluster that lists the chunk [h2] twice, at positions 1 and 3. *)
Definition twice : cluster := mkCluster [2; 1; 3; 1]%positive scores.

(** A chunk between two neighbours, the previous one in its own block. *)
Definition middle : html.Chunk :=
  html.mkChunk 5 (Some (html.mkNeighbour 9 (util.mkText 4 2)))
    (Some (html.mkNeighbour 8 (util.mkText 6 1))) text
    (html.mkNode "p" None) 9%positive ["nav"; "main"]%string 5 (VFloat32 F32.one) [].

Definition score (cl : cluster) : float32 := F32.of_int 26.
Definition similarity (a b : util.Text) : float32 := F32.of_int 1.
End Sample.

(** * Properties *)

(** Closing the side conditions of a concrete instance. *)
Ltac concrete := vm_compute; repeat split; first [reflexivity | discriminate].
Ltac decided := apply (bool_decide_unpack _); vm_compute; exact I.

(** ** Integers in range *)

Lemma wrap_small (z : Z) : min_int <= z <= max_int -> wrap z = z.
Proof.
  unfold wrap, min_int, max_int. intros H.
  rewrite Z.mod_small; lia.
Qed.

Lemma int_add_small (a b : Z) : min_int <= a + b <= max_int -> int_add a b = a + b.
Proof. apply wrap_small. Qed.

Lemma int_sub_small (a b : Z) : min_int <= a - b <= max_int -> int_sub a b = a - b.
Proof. apply wrap_small. Qed.

Lemma max_int_pos : 0 < max_int.
Proof. reflexivity. Qed.

Lemma min_int_neg : min_int < 0.
Proof. reflexivity. Qed.

Lemma len_nonneg {A : Type} (s : list A) : 0 <= len s.
Proof. unfold len. lia. Qed.

Global Opaque min_int max_int wrap.

(** ** The monad *)

Lemma bind_Ok {A B : Type} (m : M A) (k : A -> M B) (fw fw' : featureWriter) (a : A) :
  m fw = Ok (a, fw') -> (m ≫= k) fw = k a fw'.
Proof. intros H. unfold mbind, M_bind. now rewrite H. Qed.

Lemma bind_Panic {A B : Type} (m : M A) (k : A -> M B) (fw : featureWriter) (p : panic) :
  m fw = Panic p -> (m ≫= k) fw = Panic p.
Proof. intros H. unfold mbind, M_bind. now rewrite H. Qed.

Lemma bind_inv {A B : Type} (m : M A) (k : A -> M B) (fw fw2 : featureWriter) (b : B) :
  (m ≫= k) fw = Ok (b, fw2) ->
  exists a fw1, m fw = Ok (a, fw1) /\ k a fw1 = Ok (b, fw2).
Proof.
  unfold mbind, M_bind. destruct (m fw) as [[a fw1]|p]; [|discriminate].
  intros H. now exists a, fw1.
Qed.

(** ** Writer primitives *)

Lemma len_put l i val : len (put l i val) = len l.
Proof. unfold len, put. now rewrite length_insert. Qed.

Lemma slot_put_eq l i j val :
  i = j -> 0 <= i < len l -> val <> VOther ->
  slot (put l i val) j = Some (store val F32.zero).
Proof.
  unfold slot, put, len. intros <- Hi Hv.
  destruct (0 <=? i) eqn:E; [|lia].
  rewrite list_lookup_insert_eq by lia.
  destruct val; simpl; congruence.
Qed.

Lemma slot_put_ne l i j val : i <> j -> 0 <= i -> slot (put l i val) j = slot l j.
Proof.
  unfold slot, put. intros Hne Hi.
  destruct (0 <=? j) eqn:E; [|reflexivity].
  apply list_lookup_insert_ne. lia.
Qed.

Lemma Skip_at l sp p n :
  min_int <= p + n <= max_int ->
  Skip n (at_ l sp p) = Ok (tt, at_ l sp (p + n)).
Proof. intros H. unfold Skip, at_. simpl. now rewrite int_add_small. Qed.

Lemma write_at l sp p val off skip :
  0 <= p + off < len l -> len l <= max_int -> 0 <= skip -> p + skip <= max_int -> min_int <= p ->
  write val off skip (at_ l sp p) = Ok (tt, at_ (put l (p + off) val) sp (p + skip)).
Proof.
  intros Hi Hl Hs Hps Hp. unfold write, at_. simpl.
  rewrite int_add_small by (pose proof min_int_neg; lia).
  destruct ((0 <=? p + off) && (p + off <? len l)) eqn:E; [|lia].
  destruct (0 <? skip) eqn:E2.
  - unfold Skip. simpl. rewrite int_add_small by lia. reflexivity.
  - assert (skip = 0) as -> by lia. now rewrite Z.add_0_r.
Qed.

Lemma write_out_of_range l sp p val off skip :
  min_int <= p + off <= max_int -> ~ (0 <= p + off < len l) ->
  write val off skip (at_ l sp p) = Panic IndexOutOfRange.
Proof.
  intros Hr Hi. unfold write, at_. simpl. rewrite int_add_small by lia.
  destruct ((0 <=? p + off) && (p + off <? len l)) eqn:E; [lia|reflexivity].
Qed.

Lemma Write_at l sp p val :
  0 <= p < len l -> len l <= max_int ->
  Write val (at_ l sp p) = Ok (tt, at_ (put l p val) sp (p + 1)).
Proof.
  intros Hp Hl. unfold Write.
  rewrite write_at by (pose proof min_int_neg; lia).
  now rewrite Z.add_0_r.
Qed.

Lemma WriteAt_at l sp p val off :
  0 <= p -> 0 <= off -> p + off < len l -> len l <= max_int ->
  WriteAt val off (at_ l sp p) = Ok (tt, at_ (put l (p + off) val) sp p).
Proof.
  intros Hp Ho Hi Hl. unfold WriteAt.
  rewrite write_at by (pose proof min_int_neg; lia).
  now rewrite Z.add_0_r.
Qed.

(** ** Assign *)

Lemma Assign_partial fw f cur :
  fw_feature fw = Some cur -> Pos fw <> cap cur -> Assign f fw = Panic PartiallyFilled.
Proof.
  unfold Assign. intros -> Hne.
  destruct (Z.eqb_spec (Pos fw) (cap cur)); [contradiction|reflexivity].
Qed.

Lemma Assign_first fw f : fw_feature fw = None -> Assign f fw = Ok (tt, mkWriter f 0).
Proof. unfold Assign. now intros ->. Qed.

Lemma Assign_full fw f cur :
  fw_feature fw = Some cur -> Pos fw = cap cur -> Assign f fw = Ok (tt, mkWriter f 0).
Proof. unfold Assign. intros -> ->. now rewrite Z.eqb_refl. Qed.

(** C5. [Assign] panics when a vector is bound and the cursor is not at
    its capacity; on first use (no vector bound) and when the cursor equals
    the capacity it binds the new vector and puts the cursor at 0. *)
Theorem Assign_guard (fw : featureWriter) (f : option feature) :
  (forall cur, fw_feature fw = Some cur -> Pos fw <> cap cur ->
     Assign f fw = Panic PartiallyFilled)
  /\ (fw_feature fw = None -> Assign f fw = Ok (tt, mkWriter f 0))
  /\ (forall cur, fw_feature fw = Some cur -> Pos fw = cap cur ->
        Assign f fw = Ok (tt, mkWriter f 0)).
Proof.
  split; [|split].
  - apply Assign_partial.
  - apply Assign_first.
  - apply Assign_full.
Qed.

Lemma Assign_guard_cases :
  Assign None (mkWriter (Some (mkFeature [F32.zero; F32.zero] 0)) 1) = Panic PartiallyFilled
  /\ Assign (Some (mkFeature [F32.zero] 0)) (mkWriter None 5)
     = Ok (tt, mkWriter (Some (mkFeature [F32.zero] 0)) 0)
  /\ Assign None (mkWriter (Some (mkFeature [F32.zero; F32.zero] 0)) 2)
     = Ok (tt, mkWriter None 0).
Proof.
  split; [|split].
  - apply (proj1 (Assign_guard (mkWriter (Some (mkFeature [F32.zero; F32.zero] 0)) 1) None)
             (mkFeature [F32.zero; F32.zero] 0)); [reflexivity|discriminate].
  - apply (proj1 (proj2 (Assign_guard (mkWriter None 5) (Some (mkFeature [F32.zero] 0))))).
    reflexivity.
  - apply (proj2 (proj2 (Assign_guard (mkWriter (Some (mkFeature [F32.zero; F32.zero] 0)) 2) None))
             (mkFeature [F32.zero; F32.zero] 0)); reflexivity.
Defined.

(** ** Slot counts *)

Lemma advances_ret : advances (mret tt) 0.
Proof. intros l sp p _ _ _. exists l. now rewrite Z.add_0_r. Qed.

Lemma advances_Skip n : 0 <= n -> advances (Skip n) n.
Proof.
  intros Hn l sp p Hp Hk Hl. exists l. split; [|reflexivity].
  apply Skip_at. pose proof min_int_neg. lia.
Qed.

Lemma advances_Write val : advances (Write val) 1.
Proof.
  intros l sp p Hp Hk Hl. exists (put l p val). split; [|apply len_put].
  apply Write_at; lia.
Qed.

Lemma advances_seq m1 m2 k1 k2 :
  0 <= k1 -> 0 <= k2 -> advances m1 k1 -> advances m2 k2 ->
  advances (m1 ;; m2) (k1 + k2).
Proof.
  intros Hk1 Hk2 H1 H2 l sp p Hp Hk Hl.
  destruct (H1 l sp p) as (l1 & E1 & L1); [lia..|].
  destruct (H2 l1 sp (p + k1)) as (l2 & E2 & L2); [lia..|].
  exists l2. split; [|congruence].
  rewrite (bind_Ok _ _ _ _ _ E1), E2. now rewrite Z.add_assoc.
Qed.

Lemma advances_WriteAt_Skip val off n :
  0 <= off < n -> advances (WriteAt val off ;; Skip n) n.
Proof.
  intros Ho l sp p Hp Hk Hl. exists (put l (p + off) val). split; [|apply len_put].
  rewrite (bind_Ok _ _ _ _ _ (WriteAt_at l sp p val off ltac:(lia) ltac:(lia) ltac:(lia) Hl)).
  apply Skip_at. pose proof min_int_neg. lia.
Qed.

Lemma advances_or_divides_of m k : advances m k -> advances_or_divides m k.
Proof. intros H l sp p Hp Hk Hl. left. now apply H. Qed.

Lemma advances_or_divides_seq m1 m2 k1 k2 :
  0 <= k1 -> 0 <= k2 -> advances_or_divides m1 k1 -> advances_or_divides m2 k2 ->
  advances_or_divides (m1 ;; m2) (k1 + k2).
Proof.
  intros Hk1 Hk2 H1 H2 l sp p Hp Hk Hl.
  destruct (H1 l sp p) as [(l1 & E1 & L1)|E1]; [lia..| |].
  - rewrite (bind_Ok _ _ _ _ _ E1).
    destruct (H2 l1 sp (p + k1)) as [(l2 & E2 & L2)|E2]; [lia..| |].
    + left. exists l2. split; [|congruence]. rewrite E2. now rewrite Z.add_assoc.
    + now right.
  - right. now apply bind_Panic.
Qed.

(** [Write val ;; m] where [m] takes [k] slots. *)
Ltac one_slot k := apply (advances_seq _ _ 1 k); [lia | lia | apply advances_Write |].

(** The offsets of both type tables lie in [0, 4). *)
Lemma elementTypes_range (tag : string) : 0 <= map_index elementTypes tag < 4.
Proof.
  unfold map_index, elementTypes. simpl.
  repeat (rewrite lookup_insert; case_decide; [simpl; lia|]).
  rewrite lookup_empty. simpl. lia.
Qed.

Lemma parentTypes_range (tag : string) : 0 <= map_index parentTypes tag < 4.
Proof.
  unfold map_index, parentTypes. simpl.
  repeat (rewrite lookup_insert; case_decide; [simpl; lia|]).
  rewrite lookup_empty. simpl. lia.
Qed.

Lemma advances_WriteElementType chunk : advances (WriteElementType chunk) 4.
Proof. apply advances_WriteAt_Skip, elementTypes_range. Qed.

Lemma advances_WriteParentType chunk : advances (WriteParentType chunk) 4.
Proof.
  unfold WriteParentType. destruct (html.Parent (html.Base chunk)) as [parent|].
  - apply advances_WriteAt_Skip, parentTypes_range.
  - apply (advances_seq _ _ 0 4); [lia | lia | apply advances_ret | apply advances_Skip; lia].
Qed.

Lemma advances_WriteSiblingTypes chunk : advances (WriteSiblingTypes chunk) 7.
Proof.
  unfold WriteSiblingTypes. destruct (siblingCounts _) as [count types].
  one_slot 6. one_slot 5. one_slot 4. one_slot 3.
  destruct (0 <? count).
  - one_slot 2. one_slot 1. apply advances_Write.
  - apply advances_Skip. lia.
Qed.

Lemma counted_spec classes cs class stat :
  counted classes cs = true -> class ∈ cs -> classes !! class = Some stat ->
  html.Count stat <> 0.
Proof.
  unfold counted. rewrite forallb_forall. intros H Hin E.
  specialize (H class (proj1 (list_elem_of_In _ _) Hin)). rewrite E in H.
  destruct (Z.eqb_spec (html.Count stat) 0); [discriminate|assumption].
Qed.

Lemma counted_cons classes class rest :
  counted classes (class :: rest) = true -> counted classes rest = true.
Proof. unfold counted. simpl. now intros [_ H]%andb_prop. Qed.

Lemma int_quot_Some (a b : Z) : b <> 0 -> int_quot a b = Some (wrap (Z.quot a b)).
Proof. intros H. unfold int_quot. destruct (Z.eqb_spec b 0); [contradiction|reflexivity]. Qed.

Lemma bestClassStat_total classes cs best :
  counted classes cs = true ->
  (forall b, best = Some b -> html.Count b <> 0) ->
  exists r, bestClassStat classes cs best = Ok r
            /\ (forall b, r = Some b -> html.Count b <> 0).
Proof.
  revert best. induction cs as [|class rest IH]; intros best Hc Hb; simpl.
  - now exists best.
  - pose proof (counted_cons _ _ _ Hc) as Hrest.
    destruct (classes !! class) as [stat|] eqn:E; [|now apply IH].
    assert (html.Count stat <> 0) as Hs
      by (apply (counted_spec _ _ class stat Hc); [apply list_elem_of_here|exact E]).
    destruct best as [b|].
    + rewrite (int_quot_Some _ _ Hs), (int_quot_Some _ _ (Hb b eq_refl)).
      apply IH; [exact Hrest|].
      intros b'. destruct (_ <? _); intros [= <-]; auto.
    + apply IH; [exact Hrest|]. now intros b' [= <-].
Qed.

(** The loop ends with a selection or with the panic of a division. *)
Lemma bestClassStat_cases classes cs : forall best,
  (exists r, bestClassStat classes cs best = Ok r)
  \/ bestClassStat classes cs best = Panic DivideByZero.
Proof.
  induction cs as [|class rest IH]; intros best; simpl.
  - left. now exists best.
  - destruct (classes !! class) as [stat|]; [|apply IH].
    destruct best as [b|]; [|apply IH].
    destruct (int_quot (html.Words stat) (html.Count stat)) as [q|]; [|now right].
    destruct (int_quot (html.Words b) (html.Count b)) as [qb|]; [|now right].
    apply IH.
Qed.

Section ChunkSlots.

Variables AncestorArticle AncestorAside AncestorBlockquote AncestorList : Z.

Lemma advances_WriteAncestors chunk :
  advances
    (WriteAncestors AncestorArticle AncestorAside AncestorBlockquote AncestorList chunk) 4.
Proof. unfold WriteAncestors. one_slot 3. one_slot 2. one_slot 1. apply advances_Write. Qed.

Lemma advances_WriteTextStat chunk : advances (WriteTextStat chunk) 3.
Proof. unfold WriteTextStat. one_slot 2. one_slot 1. apply advances_Write. Qed.

Lemma advances_neighbour (o : option html.Neighbour) blk :
  advances
    (match o with
     | Some n =>
         Write (VBool (bool_decide (html.nBlock n = blk))) ;;
         Write (VInt (util.Words (html.nText n))) ;;
         Write (VInt (util.Sentences (html.nText n)))
     | None => Skip 3
     end) 3.
Proof.
  destruct o as [n|].
  - one_slot 2. one_slot 1. apply advances_Write.
  - apply advances_Skip. lia.
Qed.

Lemma advances_WriteTextStatSiblings chunk : advances (WriteTextStatSiblings chunk) 6.
Proof.
  unfold WriteTextStatSiblings.
  apply (advances_seq _ _ 3 3); [lia | lia | apply advances_neighbour..].
Qed.

Lemma advances_classStat (r : option html.TextStat) :
  advances
    (match r with
     | Some best =>
         Write (VBool true) ;;
         Write (VFloat32 (F32.div (F32.of_int (html.Words best)) (F32.of_int (html.Count best)))) ;;
         Write (VFloat32 (F32.div (F32.of_int (html.Sentences best)) (F32.of_int (html.Count best))))
     | None => Write (VBool false) ;; Skip 2
     end) 3.
Proof.
  destruct r as [best|].
  - one_slot 2. one_slot 1. apply advances_Write.
  - one_slot 2. apply advances_Skip. lia.
Qed.

Lemma advances_WriteClassStat chunk classes :
  counted classes (html.Classes chunk) = true -> advances (WriteClassStat chunk classes) 3.
Proof.
  intros Hc l sp p Hp Hk Hl. unfold WriteClassStat.
  destruct (bestClassStat_total classes (html.Classes chunk) None Hc) as (r & E & _);
    [discriminate|].
  erewrite bind_Ok; [|unfold lift; rewrite E; reflexivity].
  now apply advances_classStat.
Qed.

Lemma advances_WriteClusterStat chunk clusters : advances (WriteClusterStat chunk clusters) 5.
Proof.
  unfold WriteClusterStat. destruct (clusters !! html.Addr chunk) as [stat|].
  - one_slot 4. one_slot 3. one_slot 2. one_slot 1. apply advances_Write.
  - apply advances_Skip. lia.
Qed.

Lemma advances_chunkPass chunk classes clusters :
  counted classes (html.Classes chunk) = true ->
  advances
    (chunkPass AncestorArticle AncestorAside AncestorBlockquote AncestorList
       chunk classes clusters) 36.
Proof.
  intros Hc. unfold chunkPass.
  apply (advances_seq _ _ 4 32); [lia | lia | apply advances_WriteElementType |].
  apply (advances_seq _ _ 4 28); [lia | lia | apply advances_WriteParentType |].
  apply (advances_seq _ _ 7 21); [lia | lia | apply advances_WriteSiblingTypes |].
  apply (advances_seq _ _ 4 17); [lia | lia | apply advances_WriteAncestors |].
  apply (advances_seq _ _ 3 14); [lia | lia | apply advances_WriteTextStat |].
  apply (advances_seq _ _ 6 8); [lia | lia | apply advances_WriteTextStatSiblings |].
  apply (advances_seq _ _ 3 5); [lia | lia | now apply advances_WriteClassStat |].
  apply advances_WriteClusterStat.
Qed.

Lemma WriteClassStat_or_divides chunk classes :
  advances_or_divides (WriteClassStat chunk classes) 3.
Proof.
  intros l sp p Hp Hk Hl. unfold WriteClassStat.
  destruct (bestClassStat_cases classes (html.Classes chunk) None) as [(r & E)|E].
  - left. erewrite bind_Ok; [|unfold lift; rewrite E; reflexivity].
    now apply advances_classStat.
  - right. apply bind_Panic. unfold lift. now rewrite E.
Qed.

Lemma chunkPass_or_divides chunk classes clusters :
  advances_or_divides
    (chunkPass AncestorArticle AncestorAside AncestorBlockquote AncestorList
       chunk classes clusters) 36.
Proof.
  unfold chunkPass.
  apply (advances_or_divides_seq _ _ 4 32);
    [lia | lia | apply advances_or_divides_of, advances_WriteElementType |].
  apply (advances_or_divides_seq _ _ 4 28);
    [lia | lia | apply advances_or_divides_of, advances_WriteParentType |].
  apply (advances_or_divides_seq _ _ 7 21);
    [lia | lia | apply advances_or_divides_of, advances_WriteSiblingTypes |].
  apply (advances_or_divides_seq _ _ 4 17);
    [lia | lia | apply advances_or_divides_of, advances_WriteAncestors |].
  apply (advances_or_divides_seq _ _ 3 14);
    [lia | lia | apply advances_or_divides_of, advances_WriteTextStat |].
  apply (advances_or_divides_seq _ _ 6 8);
    [lia | lia | apply advances_or_divides_of, advances_WriteTextStatSiblings |].
  apply (advances_or_divides_seq _ _ 3 5); [lia | lia | apply WriteClassStat_or_divides |].
  apply advances_or_divides_of, advances_WriteClusterStat.
Qed.

End ChunkSlots.

(** ** The slot layout of the chunk vector *)

Section ChunkLayout.

Variables AncestorArticle AncestorAside AncestorBlockquote AncestorList : Z.

#[local] Abbreviation WriteAncestors' :=
  (WriteAncestors AncestorArticle AncestorAside AncestorBlockquote AncestorList).
#[local] Abbreviation chunkPass' :=
  (chunkPass AncestorArticle AncestorAside AncestorBlockquote AncestorList).

(** C2, as amended. Each sub-encoder moves the cursor by a fixed count on
    every branch: element type 4, parent type 4, sibling composition 7,
    ancestor context 4, own text statistics 3, neighbour text statistics
    6, same-class statistics 3 (unless the comparison of two class
    statistics divides by a zero count, which no statistic with
    occurrences causes), same-cluster statistics 5; the counts add up to
    the capacity 36 with no slot to spare. *)
Theorem sub_encoder_slot_counts chunk classes clusters :
  advances (WriteElementType chunk) 4
  /\ advances (WriteParentType chunk) 4
  /\ advances (WriteSiblingTypes chunk) 7
  /\ advances (WriteAncestors' chunk) 4
  /\ advances (WriteTextStat chunk) 3
  /\ advances (WriteTextStatSiblings chunk) 6
  /\ advances_or_divides (WriteClassStat chunk classes) 3
  /\ (counted classes (html.Classes chunk) = true ->
      advances (WriteClassStat chunk classes) 3)
  /\ advances (WriteClusterStat chunk clusters) 5
  /\ 4 + 4 + 7 + 4 + 3 + 6 + 3 + 5 = chunkFeatureCap.
Proof.
  split; [apply advances_WriteElementType|].
  split; [apply advances_WriteParentType|].
  split; [apply advances_WriteSiblingTypes|].
  split; [apply advances_WriteAncestors|].
  split; [apply advances_WriteTextStat|].
  split; [apply advances_WriteTextStatSiblings|].
  split; [apply WriteClassStat_or_divides|].
  split; [apply advances_WriteClassStat|].
  split; [apply advances_WriteClusterStat|reflexivity].
Qed.

(** C10, as amended. When every class statistic the chunk's classes
    reach has a non-zero occurrence count, the eight sub-encoders, run in
    their fixed order on a vector with 36 slots left, complete and move the
    cursor by exactly 36 whatever branches they take; without that
    condition a run either does the same or is cut short by the division
    by zero of the class comparison. On a writer just bound to a 36-slot
    vector every completed pass leaves the cursor at the capacity, and the
    next [Assign] succeeds. *)
Theorem chunkPass_fills chunk classes clusters :
  (forall l sp p,
      0 <= p -> p + 36 <= len l -> len l <= max_int ->
      (exists l',
          chunkPass' chunk classes clusters (at_ l sp p) = Ok (tt, at_ l' sp (p + 36))
          /\ len l' = len l)
      \/ chunkPass' chunk classes clusters (at_ l sp p) = Panic DivideByZero)
  /\ (counted classes (html.Classes chunk) = true ->
      forall l sp p,
        0 <= p -> p + 36 <= len l -> len l <= max_int ->
        exists l',
          chunkPass' chunk classes clusters (at_ l sp p) = Ok (tt, at_ l' sp (p + 36))
          /\ len l' = len l)
  /\ (forall v fw' next,
         len v = chunkFeatureCap ->
         chunkPass' chunk classes clusters (at_ v 0 0) = Ok (tt, fw') ->
         Pos fw' = chunkFeatureCap
         /\ (exists v', fw_feature fw' = Some (mkFeature v' 0)
                         /\ cap (mkFeature v' 0) = chunkFeatureCap)
         /\ Assign next fw' = Ok (tt, mkWriter next 0)).
Proof.
  split; [apply chunkPass_or_divides|].
  split; [apply advances_chunkPass|].
  intros v fw' next Hv E. unfold chunkFeatureCap in *.
  destruct (chunkPass_or_divides AncestorArticle AncestorAside AncestorBlockquote
              AncestorList chunk classes clusters v 0%nat 0) as [(v' & E' & L)|E'];
    [lia | lia | rewrite Hv; vm_compute; discriminate | | congruence].
  rewrite E' in E. injection E as <-.
  assert (cap (mkFeature v' 0) = 36) as Hcap by (unfold cap; simpl; lia).
  split; [reflexivity|]. split; [now exists v'|].
  apply (Assign_full _ _ (mkFeature v' 0)); [reflexivity|now rewrite Hcap].
Qed.

End ChunkLayout.

Lemma sub_encoder_slot_counts_sample :
  advances (WriteElementType Sample.span) 4
  /\ advances (WriteParentType Sample.span) 4
  /\ advances (WriteSiblingTypes Sample.span) 7
  /\ advances (WriteAncestors 1 2 4 8 Sample.span) 4
  /\ advances (WriteTextStat Sample.span) 3
  /\ advances (WriteTextStatSiblings Sample.span) 6
  /\ advances (WriteClassStat Sample.span Sample.classes) 3
  /\ advances (WriteClusterStat Sample.span Sample.clusters) 5.
Proof.
  destruct (sub_encoder_slot_counts 1 2 4 8 Sample.span Sample.classes Sample.clusters)
    as (H1 & H2 & H3 & H4 & H5 & H6 & _ & H7 & H8 & _).
  repeat split; try assumption. apply H7. reflexivity.
Defined.

(** C2, as the specification words it, fails: the element type takes four
    slots of a zeroed chunk vector, not five, and so does the parent
    type. *)
Lemma element_type_not_five_slots :
  (exists fw',
      WriteElementType Sample.h2 (at_ Sample.chunkVec 0 0) = Ok (tt, fw')
      /\ Pos fw' = 0 + 4 /\ Pos fw' <> 0 + 5)
  /\ (exists fw',
        WriteParentType Sample.para (at_ Sample.chunkVec 0 4) = Ok (tt, fw')
        /\ Pos fw' = 4 + 4 /\ Pos fw' <> 4 + 5).
Proof.
  split; eexists; (split; [vm_compute; reflexivity|]); (split; [reflexivity|discriminate]).
Qed.

(** C10, as the specification words it, fails for a class map with a
    statistic without occurrences: the class comparison divides by zero,
    the pass panics before the cursor has moved by 36, and no [Assign]
    follows. *)
Lemma chunkPass_zero_count_panics :
  html.Classes Sample.span = ["a"; "b"]%string
  /\ <["b" := html.mkTextStat 7 2 0]> Sample.classes !! "a"%string
     = Some (html.mkTextStat 3 1 2)
  /\ <["b" := html.mkTextStat 7 2 0]> Sample.classes !! "b"%string
     = Some (html.mkTextStat 7 2 0)
  /\ chunkPass 1 2 4 8 Sample.span (<["b" := html.mkTextStat 7 2 0]> Sample.classes)
       Sample.clusters (at_ Sample.chunkVec 0 0)
     = Panic DivideByZero.
Proof. repeat split; vm_compute; reflexivity. Qed.

Lemma chunkPass_fills_sample :
  exists l',
    chunkPass 1 2 4 8 Sample.span Sample.classes Sample.clusters (at_ Sample.chunkVec 0 0)
    = Ok (tt, at_ l' 0 36)
    /\ len l' = len Sample.chunkVec
    /\ Assign None (at_ l' 0 36) = Ok (tt, mkWriter None 0).
Proof.
  destruct (chunkPass_fills 1 2 4 8 Sample.span Sample.classes Sample.clusters)
    as (_ & Hruns & Hfull).
  destruct (Hruns eq_refl Sample.chunkVec 0%nat 0) as (l' & E & L); [concrete..|].
  exists l'. split; [exact E|]. split; [exact L|].
  destruct (Hfull Sample.chunkVec (at_ l' 0 36) None eq_refl E) as (_ & _ & HA).
  exact HA.
Defined.

(** ** Element type and parent type *)

(** Reading a slot back through a stack of writes. *)
Ltac slots :=
  repeat first
    [ rewrite slot_put_ne by lia
    | rewrite slot_put_eq by (first [rewrite ?len_put; lia | discriminate | assumption]) ];
  try reflexivity.

Lemma map_index_Some (m : gmap string Z) (k : string) (z : Z) :
  m !! k = Some z -> map_index m k = z.
Proof. unfold map_index. now intros ->. Qed.

Lemma map_index_None (m : gmap string Z) (k : string) : m !! k = None -> map_index m k = 0.
Proof. unfold map_index. now intros ->. Qed.

Lemma WriteAt_Skip_at l sp p off :
  0 <= p -> p + 4 <= len l -> len l <= max_int -> 0 <= off < 4 ->
  (WriteAt (VBool true) off ;; Skip 4) (at_ l sp p)
  = Ok (tt, at_ (put l (p + off) (VBool true)) sp (p + 4)).
Proof.
  intros Hp Hk Hl Ho.
  rewrite (bind_Ok _ _ _ _ _ (WriteAt_at l sp p _ off ltac:(lia) ltac:(lia) ltac:(lia) Hl)).
  apply Skip_at. pose proof min_int_neg. lia.
Qed.

Lemma WriteElementType_at chunk l sp p :
  0 <= p -> p + 4 <= len l -> len l <= max_int ->
  WriteElementType chunk (at_ l sp p)
  = Ok (tt, at_ (put l (p + map_index elementTypes (html.Data (html.Base chunk))) (VBool true))
              sp (p + 4)).
Proof. intros Hp Hk Hl. now apply WriteAt_Skip_at, elementTypes_range. Qed.

(** A tag of the table sets the slot of its offset and no other. *)
Lemma WriteElementType_recognised chunk l sp p k :
  elementTypes !! html.Data (html.Base chunk) = Some k ->
  0 <= p -> p + 4 <= len l -> len l <= max_int ->
  exists l',
    WriteElementType chunk (at_ l sp p) = Ok (tt, at_ l' sp (p + 4))
    /\ slot l' (p + k) = Some F32.one
    /\ forall j, j <> p + k -> slot l' j = slot l j.
Proof.
  intros E Hp Hk Hl. eexists. split; [now apply WriteElementType_at|].
  pose proof (elementTypes_range (html.Data (html.Base chunk))) as Hr.
  rewrite (map_index_Some _ _ _ E) in *.
  split; [|intros j Hj]; slots.
Qed.

(** A tag outside the table indexes the map at its zero value: the slot
    at offset 0, the one of ["p"], is set. *)
Lemma WriteElementType_unrecognised chunk l sp p :
  elementTypes !! html.Data (html.Base chunk) = None ->
  0 <= p -> p + 4 <= len l -> len l <= max_int ->
  exists l',
    WriteElementType chunk (at_ l sp p) = Ok (tt, at_ l' sp (p + 4))
    /\ slot l' p = Some F32.one
    /\ forall j, j <> p -> slot l' j = slot l j.
Proof.
  intros E Hp Hk Hl. eexists. split; [now apply WriteElementType_at|].
  rewrite (map_index_None _ _ E), Z.add_0_r.
  split; [|intros j Hj]; slots.
Qed.

(** C3. On a zeroed chunk vector the tag ["h2"] sets the heading slot and
    ["div"] the generic-block slot, each alone; the unrecognised tag
    ["span"] does not leave the four slots zero: it sets the paragraph
    slot, as ["p"] does. *)
Theorem element_type_one_hot :
  WriteElementType Sample.h2 (at_ Sample.chunkVec 0 0)
  = Ok (tt, at_ ([F32.zero; F32.zero; F32.zero; F32.one] ++ replicate 32 F32.zero) 0 4)
  /\ WriteElementType (Sample.chunk 4 "div" None [] []) (at_ Sample.chunkVec 0 0)
     = Ok (tt, at_ ([F32.zero; F32.zero; F32.one; F32.zero] ++ replicate 32 F32.zero) 0 4)
  /\ elementTypes !! html.Data (html.Base Sample.span) = None
  /\ WriteElementType Sample.span (at_ Sample.chunkVec 0 0)
     = Ok (tt, at_ ([F32.one; F32.zero; F32.zero; F32.zero] ++ replicate 32 F32.zero) 0 4)
  /\ WriteElementType Sample.span (at_ Sample.chunkVec 0 0)
     = WriteElementType (Sample.chunk 2 "p" (Some "ul"%string) ["a"; "b"]%string [])
         (at_ Sample.chunkVec 0 0).
Proof. repeat split; vm_compute; reflexivity. Qed.

Lemma WriteParentType_at chunk parent l sp p :
  html.Parent (html.Base chunk) = Some parent ->
  0 <= p -> p + 4 <= len l -> len l <= max_int ->
  WriteParentType chunk (at_ l sp p)
  = Ok (tt, at_ (put l (p + map_index parentTypes (html.Data parent)) (VBool true)) sp (p + 4)).
Proof.
  intros E Hp Hk Hl. unfold WriteParentType. rewrite E.
  now apply WriteAt_Skip_at, parentTypes_range.
Qed.

(** Without a parent nothing is written. *)
Lemma WriteParentType_orphan chunk l sp p :
  html.Parent (html.Base chunk) = None ->
  0 <= p -> p + 4 <= len l -> len l <= max_int ->
  WriteParentType chunk (at_ l sp p) = Ok (tt, at_ l sp (p + 4)).
Proof.
  intros E Hp Hk Hl. unfold WriteParentType. rewrite E.
  erewrite bind_Ok; [|reflexivity].
  apply Skip_at. pose proof min_int_neg. lia.
Qed.

Lemma WriteParentType_recognised chunk parent l sp p k :
  html.Parent (html.Base chunk) = Some parent ->
  parentTypes !! html.Data parent = Some k ->
  0 <= p -> p + 4 <= len l -> len l <= max_int ->
  exists l',
    WriteParentType chunk (at_ l sp p) = Ok (tt, at_ l' sp (p + 4))
    /\ slot l' (p + k) = Some F32.one
    /\ forall j, j <> p + k -> slot l' j = slot l j.
Proof.
  intros Epar E Hp Hk Hl. eexists.
  split; [apply (WriteParentType_at chunk parent); assumption|].
  pose proof (parentTypes_range (html.Data parent)) as Hr.
  rewrite (map_index_Some _ _ _ E) in *.
  split; [|intros j Hj]; slots.
Qed.

(** A parent whose tag is outside the table sets the slot at offset 0,
    the one of a ["p"] parent. *)
Lemma WriteParentType_unrecognised chunk parent l sp p :
  html.Parent (html.Base chunk) = Some parent ->
  parentTypes !! html.Data parent = None ->
  0 <= p -> p + 4 <= len l -> len l <= max_int ->
  exists l',
    WriteParentType chunk (at_ l sp p) = Ok (tt, at_ l' sp (p + 4))
    /\ slot l' p = Some F32.one
    /\ forall j, j <> p -> slot l' j = slot l j.
Proof.
  intros Epar E Hp Hk Hl. eexists.
  split; [apply (WriteParentType_at chunk parent); assumption|].
  rewrite (map_index_None _ _ E), Z.add_0_r.
  split; [|intros j Hj]; slots.
Qed.

(** C4. On a zeroed chunk vector a chunk without parent leaves the four
    parent-type slots zero and a ["div"] parent sets the generic-block slot
    alone; a parent with the unrecognised tag ["ul"] does not leave them
    zero: it sets the paragraph slot, as a ["p"] parent does. *)
Theorem parent_type_one_hot :
  WriteParentType Sample.h2 (at_ Sample.chunkVec 0 4) = Ok (tt, at_ Sample.chunkVec 0 8)
  /\ WriteParentType Sample.para (at_ Sample.chunkVec 0 4)
     = Ok (tt, at_ (replicate 4 F32.zero ++ [F32.zero; F32.zero; F32.one; F32.zero]
                    ++ replicate 28 F32.zero) 0 8)
  /\ (exists parent, html.Parent (html.Base Sample.span) = Some parent
                     /\ parentTypes !! html.Data parent = None)
  /\ WriteParentType Sample.span (at_ Sample.chunkVec 0 4)
     = Ok (tt, at_ (replicate 4 F32.zero ++ [F32.one; F32.zero; F32.zero; F32.zero]
                    ++ replicate 28 F32.zero) 0 8)
  /\ WriteParentType Sample.span (at_ Sample.chunkVec 0 4)
     = WriteParentType (Sample.chunk 2 "span" (Some "p"%string) [] []) (at_ Sample.chunkVec 0 4).
Proof.
  split; [vm_compute; reflexivity|].
  split; [vm_compute; reflexivity|].
  split; [eexists; split; [reflexivity|vm_compute; reflexivity]|].
  split; vm_compute; reflexivity.
Qed.

(** ** Sibling composition *)

Lemma siblingStep_typesOf c a p img x :
  siblingStep (c, typesOf a p img) x
  = (int_add c 1, typesOf (bump "a" x a) (bump "p" x p) (bump "img" x img)).
Proof.
  unfold siblingStep, typesOf, bump. simpl. f_equal.
  destruct (decide (x = "a"%string)) as [->|Ha].
  { rewrite lookup_insert_eq. apply map_eq. intros k.
    rewrite !lookup_insert. repeat case_decide; simplify_eq; reflexivity. }
  rewrite lookup_insert_ne by congruence.
  destruct (decide (x = "p"%string)) as [->|Hp].
  { rewrite lookup_insert_eq. apply map_eq. intros k.
    rewrite !lookup_insert. repeat case_decide; simplify_eq; reflexivity. }
  rewrite lookup_insert_ne by congruence.
  destruct (decide (x = "img"%string)) as [->|Hi].
  { rewrite lookup_insert_eq. apply map_eq. intros k.
    rewrite !lookup_insert. repeat case_decide; simplify_eq; reflexivity. }
  rewrite lookup_insert_ne by congruence. rewrite lookup_empty.
  rewrite !bool_decide_eq_false_2 by assumption. reflexivity.
Qed.

Lemma occurrences_nil t : occurrences t [] = 0.
Proof. reflexivity. Qed.

Lemma occurrences_cons t x l :
  occurrences t (x :: l) = (if bool_decide (x = t) then 1 else 0) + occurrences t l.
Proof.
  unfold occurrences, len. rewrite filter_cons.
  destruct (decide (x = t)) as [E|E].
  - rewrite bool_decide_eq_true_2 by assumption. simpl length. lia.
  - rewrite bool_decide_eq_false_2 by assumption. lia.
Qed.

Lemma occurrences_range t l : 0 <= occurrences t l <= len l.
Proof.
  unfold occurrences, len. pose proof (length_filter (fun x => x = t) l). lia.
Qed.

Lemma len_cons {A : Type} (x : A) (l : list A) : len (x :: l) = 1 + len l.
Proof. unfold len. simpl length. lia. Qed.

Lemma siblingCounts_from l : forall c a p img,
  0 <= a <= c -> 0 <= p <= c -> 0 <= img <= c -> c + len l <= max_int ->
  foldl siblingStep (c, typesOf a p img) l
  = (c + len l,
     typesOf (a + occurrences "a" l) (p + occurrences "p" l) (img + occurrences "img" l)).
Proof.
  induction l as [|x l IH]; intros c a p img Ha Hp Hi Hc.
  - rewrite !occurrences_nil, !Z.add_0_r. reflexivity.
  - rewrite len_cons in Hc. pose proof (len_nonneg l). pose proof min_int_neg.
    cbn [foldl]. rewrite siblingStep_typesOf.
    rewrite int_add_small by lia.
    unfold bump. rewrite !occurrences_cons, len_cons.
    destruct (bool_decide (x = "a"%string)), (bool_decide (x = "p"%string)),
      (bool_decide (x = "img"%string));
      rewrite ?int_add_small by lia;
      rewrite IH by lia; (f_equal; [lia | f_equal; lia ..]).
Qed.

(** The loop counts the siblings and, among them, the three tags. *)
Lemma siblingCounts_spec l :
  len l <= max_int ->
  siblingCounts l
  = (len l, typesOf (occurrences "a" l) (occurrences "p" l) (occurrences "img" l)).
Proof.
  intros Hl. unfold siblingCounts.
  change (list_to_map _) with (typesOf 0 0 0).
  rewrite siblingCounts_from by (pose proof (len_nonneg l); lia).
  reflexivity.
Qed.

Lemma map_index_typesOf a p img :
  map_index (typesOf a p img) "a" = a
  /\ map_index (typesOf a p img) "p" = p
  /\ map_index (typesOf a p img) "img" = img.
Proof. repeat split. Qed.

(** Running a sequence of writes on [at_ l sp p]. *)
Lemma Write_to l sp p q val :
  q = p + 1 -> 0 <= p < len l -> len l <= max_int ->
  Write val (at_ l sp p) = Ok (tt, at_ (put l p val) sp q).
Proof. intros ->. apply Write_at. Qed.

Lemma Skip_to l sp p q k :
  q = p + k -> min_int <= q <= max_int -> Skip k (at_ l sp p) = Ok (tt, at_ l sp q).
Proof. intros ->. apply Skip_at. Qed.

Ltac run_write :=
  erewrite bind_Ok; [|apply Write_at; rewrite ?len_put; lia].
Ltac last_write := apply Write_to; rewrite ?len_put; lia.
Ltac last_skip := apply Skip_to; lia.

Section Siblings.

Variable chunk : html.Chunk.

#[local] Abbreviation n := (len (html.SiblingTypes chunk)).
#[local] Abbreviation count t := (occurrences t (html.SiblingTypes chunk)).

(** C7. The sibling composition takes seven slots: the number of
    siblings and the numbers of anchor, paragraph and image siblings;
    then, without siblings, the four counts are 0 and the three fraction
    slots are skipped and keep what they held, no quotient being formed;
    with siblings, the fraction slots hold each count divided by the
    total. *)
Theorem sibling_composition l sp p :
  0 <= p -> p + 7 <= len l -> len l <= max_int -> n <= max_int ->
  exists l',
    WriteSiblingTypes chunk (at_ l sp p) = Ok (tt, at_ l' sp (p + 7))
    /\ slot l' p = Some (F32.of_int n)
    /\ slot l' (p + 1) = Some (F32.of_int (count "a"))
    /\ slot l' (p + 2) = Some (F32.of_int (count "p"))
    /\ slot l' (p + 3) = Some (F32.of_int (count "img"))
    /\ (n = 0 ->
        slot l' p = Some F32.zero /\ slot l' (p + 1) = Some F32.zero
        /\ slot l' (p + 2) = Some F32.zero /\ slot l' (p + 3) = Some F32.zero
        /\ slot l' (p + 4) = slot l (p + 4)
        /\ slot l' (p + 5) = slot l (p + 5)
        /\ slot l' (p + 6) = slot l (p + 6))
    /\ (0 < n ->
        slot l' (p + 4) = Some (F32.div (F32.of_int (count "a")) (F32.of_int n))
        /\ slot l' (p + 5) = Some (F32.div (F32.of_int (count "p")) (F32.of_int n))
        /\ slot l' (p + 6) = Some (F32.div (F32.of_int (count "img")) (F32.of_int n))).
Proof.
  intros Hp Hk Hl Hn. unfold WriteSiblingTypes.
  rewrite (siblingCounts_spec _ Hn).
  destruct (map_index_typesOf (count "a") (count "p") (count "img")) as (-> & -> & ->).
  pose proof (occurrences_range "a" (html.SiblingTypes chunk)) as Ra.
  pose proof (occurrences_range "p" (html.SiblingTypes chunk)) as Rp.
  pose proof (occurrences_range "img" (html.SiblingTypes chunk)) as Ri.
  pose proof min_int_neg as Hmin.
  destruct (0 <? n) eqn:E.
  - eexists. split; [do 6 run_write; last_write|].
    repeat split; try (intros; lia); slots.
  - assert (n = 0) as Hz by (pose proof (len_nonneg (html.SiblingTypes chunk)); lia).
    eexists. split; [do 4 run_write; last_skip|].
    assert (count "a" = 0 /\ count "p" = 0 /\ count "img" = 0) as (Za & Zp & Zi) by lia.
    repeat split; try (intros; lia); rewrite ?Hz, ?Za, ?Zp, ?Zi; slots.
Qed.

End Siblings.

Lemma sibling_composition_sample :
  (exists l',
      WriteSiblingTypes Sample.para (at_ Sample.chunkVec 0 8) = Ok (tt, at_ l' 0 15)
      /\ slot l' 8 = Some (F32.of_int 4)
      /\ slot l' 9 = Some (F32.of_int 2)
      /\ slot l' 10 = Some (F32.of_int 1)
      /\ slot l' 11 = Some (F32.of_int 0)
      /\ slot l' 12 = Some (F32.div (F32.of_int 2) (F32.of_int 4))
      /\ slot l' 13 = Some (F32.div (F32.of_int 1) (F32.of_int 4))
      /\ slot l' 14 = Some (F32.div (F32.of_int 0) (F32.of_int 4)))
  /\ (exists l',
        WriteSiblingTypes Sample.h2 (at_ Sample.chunkVec 0 8) = Ok (tt, at_ l' 0 15)
        /\ slot l' 8 = Some F32.zero /\ slot l' 9 = Some F32.zero
        /\ slot l' 10 = Some F32.zero /\ slot l' 11 = Some F32.zero
        /\ slot l' 12 = slot Sample.chunkVec 12
        /\ slot l' 13 = slot Sample.chunkVec 13
        /\ slot l' 14 = slot Sample.chunkVec 14).
Proof.
  split.
  - destruct (sibling_composition Sample.para Sample.chunkVec 0 8)
      as (l' & E & S0 & S1 & S2 & S3 & _ & S456); [concrete..|].
    destruct S456 as (S4 & S5 & S6); [concrete|].
    exists l'. repeat split; assumption.
  - destruct (sibling_composition Sample.h2 Sample.chunkVec 0 8)
      as (l' & E & _ & _ & _ & _ & Z & _); [concrete..|].
    destruct Z as (S0 & S1 & S2 & S3 & S4 & S5 & S6); [concrete|].
    exists l'. repeat split; assumption.
Defined.

(** ** Same-class statistics *)

Lemma found_cons classes class rest :
  found classes (class :: rest)
  = match classes !! class with
    | Some stat => stat :: found classes rest
    | None => found classes rest
    end.
Proof. reflexivity. Qed.

Lemma bestClassStat_foldl classes cs : forall best,
  counted classes cs = true ->
  (forall b, best = Some b -> html.Count b <> 0) ->
  bestClassStat classes cs best = Ok (foldl pick best (found classes cs)).
Proof.
  induction cs as [|class rest IH]; intros best Hc Hb; [reflexivity|].
  pose proof (counted_cons _ _ _ Hc) as Hrest.
  simpl bestClassStat. rewrite found_cons.
  destruct (classes !! class) as [stat|] eqn:E; [|now apply IH].
  assert (html.Count stat <> 0) as Hs
    by (apply (counted_spec _ _ class stat Hc); [apply list_elem_of_here|exact E]).
  cbn [foldl]. destruct best as [b|].
  - rewrite (int_quot_Some _ _ Hs), (int_quot_Some _ _ (Hb b eq_refl)).
    unfold pick, wordsPerCount. apply IH; [exact Hrest|].
    intros b'. destruct (_ <? _); intros [= <-]; auto.
  - apply IH; [exact Hrest|]. now intros b' [= <-].
Qed.

(** Once a statistic is held, one is held to the end, and its integer
    quotient is not below that of any statistic met. *)
Lemma foldl_pick_max stats : forall b,
  exists r, foldl pick (Some b) stats = Some r
            /\ wordsPerCount b <= wordsPerCount r
            /\ (forall s, s ∈ stats -> wordsPerCount s <= wordsPerCount r)
            /\ (r = b \/ r ∈ stats).
Proof.
  induction stats as [|s stats IH]; intros b.
  - exists b. repeat split; [lia| |now left]. intros s Hs. inversion Hs.
  - cbn [foldl]. unfold pick at 2.
    destruct (Z.ltb_spec (wordsPerCount b) (wordsPerCount s)) as [Hlt|Hge].
    + destruct (IH s) as (r & E & Hr & Hmax & Hin). exists r.
      split; [exact E|]. split; [lia|]. split.
      * intros s' [->|Hs']%elem_of_cons; [exact Hr|now apply Hmax].
      * right. destruct Hin as [->|Hin]; [apply list_elem_of_here|now apply list_elem_of_further].
    + destruct (IH b) as (r & E & Hr & Hmax & Hin). exists r.
      split; [exact E|]. split; [exact Hr|]. split.
      * intros s' [->|Hs']%elem_of_cons; [lia|now apply Hmax].
      * destruct Hin as [->|Hin]; [now left|right; now apply list_elem_of_further].
Qed.

(** The held statistic stays while no later quotient is strictly larger:
    the first statistic met wins a tie. *)
Lemma foldl_pick_keeps stats : forall b,
  (forall s, s ∈ stats -> wordsPerCount s <= wordsPerCount b) ->
  foldl pick (Some b) stats = Some b.
Proof.
  induction stats as [|s stats IH]; intros b Hle; [reflexivity|].
  cbn [foldl]. unfold pick at 2.
  destruct (Z.ltb_spec (wordsPerCount b) (wordsPerCount s)) as [Hlt|Hge].
  - specialize (Hle s (list_elem_of_here _ _)). lia.
  - apply IH. intros s' Hs'. apply Hle. now apply list_elem_of_further.
Qed.

(** What the code selects: nothing when no class has an entry; otherwise
    a statistic met whose truncated quotient [Words / Count] is maximal. *)
Lemma bestClassStat_selects classes cs :
  counted classes cs = true ->
  match found classes cs with
  | [] => bestClassStat classes cs None = Ok None
  | first :: others =>
      exists best,
        bestClassStat classes cs None = Ok (Some best)
        /\ best ∈ first :: others
        /\ (forall s, s ∈ first :: others -> wordsPerCount s <= wordsPerCount best)
        /\ ((forall s, s ∈ others -> wordsPerCount s <= wordsPerCount first) -> best = first)
  end.
Proof.
  intros Hc. rewrite (bestClassStat_foldl classes cs None Hc) by discriminate.
  destruct (found classes cs) as [|first others]; [reflexivity|].
  cbn [foldl pick].
  destruct (foldl_pick_max others first) as (r & E & Hr & Hmax & Hin).
  exists r. rewrite E. split; [reflexivity|]. split; [|split].
  - destruct Hin as [->|Hin]; [apply list_elem_of_here|now apply list_elem_of_further].
  - intros s [->|Hs]%elem_of_cons; [exact Hr|now apply Hmax].
  - intros Hle. rewrite (foldl_pick_keeps others first Hle) in E. congruence.
Qed.

(** The three slots of the same-class statistics: the presence flag and,
    when a statistic was selected, its two float averages; otherwise the
    two average slots are skipped. *)
Lemma WriteClassStat_at chunk classes l sp p :
  counted classes (html.Classes chunk) = true ->
  0 <= p -> p + 3 <= len l -> len l <= max_int ->
  WriteClassStat chunk classes (at_ l sp p)
  = Ok (tt,
        at_ (match foldl pick None (found classes (html.Classes chunk)) with
             | Some best =>
                 put (put (put l p (VBool true))
                        (p + 1)
                        (VFloat32 (F32.div (F32.of_int (html.Words best))
                                     (F32.of_int (html.Count best)))))
                   (p + 1 + 1)
                   (VFloat32 (F32.div (F32.of_int (html.Sentences best))
                                (F32.of_int (html.Count best))))
             | None => put l p (VBool false)
             end) sp (p + 3)).
Proof.
  intros Hc Hp Hk Hl. unfold WriteClassStat. pose proof min_int_neg.
  erewrite bind_Ok;
    [|unfold lift; rewrite (bestClassStat_foldl classes _ None Hc) by discriminate; reflexivity].
  destruct (foldl pick None _) as [best|].
  - do 2 run_write. last_write.
  - run_write. last_skip.
Qed.

(** C8. On the classes ["a"] (3 words in 2 occurrences) and ["b"] (7 words
    in 4), both in the map, ["b"] has the higher words-per-occurrence ratio
    (7/4 against 3/2, as rationals and as floats) but the loop compares the
    truncated integer quotients 1 and 1 and keeps ["a"]: the slots hold
    presence 1 and the averages 3/2 and 1/2 of ["a"]. With a zero occurrence
    count among two classes found the comparison itself panics. *)
Theorem class_stat_selection :
  found Sample.classes (html.Classes Sample.span)
  = [html.mkTextStat 3 1 2; html.mkTextStat 7 2 4]
  /\ 3 * 4 < 7 * 2
  /\ SFltb (F32.div (F32.of_int 3) (F32.of_int 2)) (F32.div (F32.of_int 7) (F32.of_int 4)) = true
  /\ wordsPerCount (html.mkTextStat 3 1 2) = 1
  /\ wordsPerCount (html.mkTextStat 7 2 4) = 1
  /\ bestClassStat Sample.classes (html.Classes Sample.span) None
     = Ok (Some (html.mkTextStat 3 1 2))
  /\ WriteClassStat Sample.span Sample.classes (at_ Sample.chunkVec 0 28)
     = Ok (tt,
           at_ (replicate 28 F32.zero
                ++ [F32.one; F32.div (F32.of_int 3) (F32.of_int 2);
                    F32.div (F32.of_int 1) (F32.of_int 2)]
                ++ replicate 5 F32.zero) 0 31)
  /\ bestClassStat (<["b" := html.mkTextStat 7 2 0]> Sample.classes)
       (html.Classes Sample.span) None
     = Panic DivideByZero.
Proof. repeat split; vm_compute; reflexivity. Qed.

(** ** Cluster score context *)

Lemma findChunk_found chunks a : forall i k,
  chunks !! i = Some a -> (forall j, (j < i)%nat -> chunks !! j <> Some a) ->
  0 <= k -> k + len chunks <= max_int ->
  findChunk chunks a k = k + Z.of_nat i.
Proof.
  induction chunks as [|c rest IH]; intros i k Hi Hfirst Hk Hlen; [discriminate|].
  rewrite len_cons in Hlen. pose proof (len_nonneg rest). pose proof min_int_neg.
  simpl findChunk. destruct i as [|i].
  - injection Hi as ->. rewrite bool_decide_eq_true_2 by reflexivity. lia.
  - rewrite bool_decide_eq_false_2.
    + rewrite int_add_small by lia.
      rewrite (IH i (k + 1)); [lia | exact Hi | | lia | lia].
      intros j Hj. apply (Hfirst (S j)). lia.
    + intros ->. apply (Hfirst 0%nat); [lia|reflexivity].
Qed.

Lemma findChunk_missing chunks a : forall k,
  a ∉ chunks -> 0 <= k -> k + len chunks <= max_int ->
  findChunk chunks a k = k + len chunks.
Proof.
  induction chunks as [|c rest IH]; intros k Hnot Hk Hlen.
  - unfold len. simpl. lia.
  - rewrite len_cons in *. pose proof (len_nonneg rest). pose proof min_int_neg.
    apply not_elem_of_cons in Hnot as [Hne Hnot].
    simpl findChunk. rewrite bool_decide_eq_false_2 by congruence.
    rewrite int_add_small by lia. rewrite IH by (assumption || lia). lia.
Qed.

(** A chunk of the list has a first position. *)
Lemma first_position (chunks : list positive) a :
  a ∈ chunks ->
  exists i, chunks !! i = Some a /\ forall j, (j < i)%nat -> chunks !! j <> Some a.
Proof.
  induction chunks as [|c rest IH]; intros Hin; [inversion Hin|].
  destruct (decide (c = a)) as [->|Hne].
  - exists 0%nat. split; [reflexivity|]. intros j Hj. lia.
  - apply elem_of_cons in Hin as [->|Hin]; [contradiction|].
    destruct (IH Hin) as (i & Hi & Hfirst). exists (S i). split; [exact Hi|].
    intros [|j] Hj; simpl; [congruence|]. apply Hfirst. lia.
Qed.

(** In a list without repetition every position is a first position. *)
Lemma NoDup_first (chunks : list positive) a i :
  NoDup chunks -> chunks !! i = Some a ->
  forall j, (j < i)%nat -> chunks !! j <> Some a.
Proof.
  intros Hnd Hi j Hj Hjj.
  pose proof (NoDup_lookup _ _ _ _ Hnd Hi Hjj). lia.
Qed.

Lemma index_in_range s i fw :
  0 <= i < len s -> exists x, slot s i = Some x /\ index s i fw = Ok (x, fw).
Proof.
  intros Hi. unfold index, slot.
  destruct ((0 <=? i) && (i <? len s)) eqn:E; [|lia].
  destruct (0 <=? i) eqn:E0; [|lia].
  destruct (s !! Z.to_nat i) as [x|] eqn:Ex.
  - now exists x.
  - apply lookup_ge_None in Ex. unfold len in Hi. lia.
Qed.

Lemma index_out_of_range s i fw :
  ~ (0 <= i < len s) -> index s i fw = Panic IndexOutOfRange.
Proof.
  intros Hi. unfold index.
  destruct ((0 <=? i) && (i <? len s)) eqn:E; [lia|reflexivity].
Qed.

(** One neighbour slot: the score at [idx] when [cond] holds, the sentinel
    otherwise. *)
Lemma neighbour_slot (cond : bool) scores idx l sp p :
  (cond = true -> 0 <= idx < len scores) ->
  0 <= p < len l -> len l <= max_int ->
  exists val,
    (if cond
     then x ← index scores idx; Write (VFloat32 x)
     else Write (VInt (-10))) (at_ l sp p)
    = Ok (tt, at_ (put l p val) sp (p + 1))
    /\ val <> VOther
    /\ Some (store val F32.zero) = (if cond then slot scores idx else Some sentinel).
Proof.
  intros Hidx Hp Hl. destruct cond.
  - destruct (index_in_range scores idx (at_ l sp p) (Hidx eq_refl)) as (x & Sx & Ex).
    exists (VFloat32 x). rewrite (bind_Ok _ _ _ _ _ Ex), Sx.
    split; [now apply Write_at|]. split; [discriminate|reflexivity].
  - exists (VInt (-10)). split; [now apply Write_at|]. split; [discriminate|reflexivity].
Qed.

Section ClusterContext.

Variable Score : cluster -> float32.

(** The chunk's first position [i] in a cluster with as many scores as
    chunks: the four slots hold the aggregate score, [Scores[i]], the
    previous score or the sentinel, and the next score or the sentinel. *)
Lemma WriteCluster_at chunk cl (i : nat) l sp p :
  Chunks cl !! i = Some (html.Addr chunk) ->
  (forall j, (j < i)%nat -> Chunks cl !! j <> Some (html.Addr chunk)) ->
  len (Scores cl) = len (Chunks cl) -> len (Chunks cl) <= max_int ->
  0 <= p -> p + 4 <= len l -> len l <= max_int ->
  exists l',
    WriteCluster Score chunk cl (at_ l sp p) = Ok (tt, at_ l' sp (p + 4))
    /\ len l' = len l
    /\ slot l' p = Some (Score cl)
    /\ slot l' (p + 1) = slot (Scores cl) (Z.of_nat i)
    /\ slot l' (p + 2)
       = (if 0 <? Z.of_nat i then slot (Scores cl) (Z.of_nat i - 1) else Some sentinel)
    /\ slot l' (p + 3)
       = (if Z.of_nat i <? len (Chunks cl) - 2
          then slot (Scores cl) (Z.of_nat i + 1) else Some sentinel)
    /\ forall j, j < p \/ p + 4 <= j -> slot l' j = slot l j.
Proof.
  intros Hi Hfirst Hsc Hlen Hp Hk Hl.
  pose proof min_int_neg. pose proof (len_nonneg (Chunks cl)).
  assert (Z.of_nat i < len (Chunks cl)) as Hlt
    by (apply lookup_lt_Some in Hi; unfold len; lia).
  unfold WriteCluster.
  rewrite (findChunk_found _ _ i 0 Hi Hfirst) by lia. rewrite Z.add_0_l.
  rewrite (int_sub_small (len (Chunks cl))) by lia.
  run_write.
  destruct (index_in_range (Scores cl) (Z.of_nat i)
              (at_ (put l p (VFloat32 (Score cl))) sp (p + 1))) as (own & Sown & Eown); [lia|].
  rewrite (bind_Ok _ _ _ _ _ Eown). run_write.
  set (l2 := put (put l p (VFloat32 (Score cl))) (p + 1) (VFloat32 own)).
  assert (len l2 = len l) as Hl2 by (unfold l2; now rewrite !len_put).
  destruct (neighbour_slot (0 <? Z.of_nat i) (Scores cl) (int_sub (Z.of_nat i) 1) l2 sp
              (p + 1 + 1)) as (prev & Eprev & Hprev & Sprev); [|lia|lia|].
  { intros Hc. rewrite int_sub_small by lia. lia. }
  rewrite (bind_Ok _ _ _ _ _ Eprev).
  destruct (neighbour_slot (Z.of_nat i <? len (Chunks cl) - 2) (Scores cl)
              (int_add (Z.of_nat i) 1) (put l2 (p + 1 + 1) prev) sp (p + 1 + 1 + 1))
    as (next & Enext & Hnext & Snext); [|rewrite len_put; lia|rewrite len_put; lia|].
  { intros Hc. rewrite int_add_small by lia. lia. }
  rewrite Enext.
  rewrite int_sub_small in Sprev by lia. rewrite int_add_small in Snext by lia.
  exists (put (put l2 (p + 1 + 1) prev) (p + 1 + 1 + 1) next).
  split; [do 2 f_equal; f_equal; lia|].
  split; [now rewrite !len_put|].
  unfold l2. repeat split.
  - slots.
  - rewrite Sown. slots.
  - rewrite <- Sprev. slots.
  - rewrite <- Snext. slots.
  - intros j Hj. slots.
Qed.

(** The search ran to the end: the read of the chunk's own score, at
    index [len(Chunks)], is out of range and panics once the aggregate score
    is written. *)
Lemma WriteCluster_missing chunk cl l sp p :
  html.Addr chunk ∉ Chunks cl ->
  len (Scores cl) = len (Chunks cl) -> len (Chunks cl) <= max_int ->
  0 <= p < len l -> len l <= max_int ->
  WriteCluster Score chunk cl (at_ l sp p) = Panic IndexOutOfRange.
Proof.
  intros Hnot Hsc Hlen Hp Hl. pose proof (len_nonneg (Chunks cl)).
  unfold WriteCluster.
  rewrite (findChunk_missing _ _ 0 Hnot) by lia. rewrite Z.add_0_l.
  run_write. apply bind_Panic, index_out_of_range. lia.
Qed.

(** C1, as amended. In a cluster with as many scores as chunks, on a
    vector with four slots left, the cluster encoding completes and moves
    the cursor by four when the chunk is one of the cluster's chunks; when
    the search reaches the end without finding it, the position found is
    [len(Chunks)], which is outside the score sequence, and the encoding
    panics with an index out of range. *)
Theorem cluster_lookup chunk cl l sp p :
  len (Scores cl) = len (Chunks cl) -> len (Chunks cl) <= max_int ->
  0 <= p -> p + 4 <= len l -> len l <= max_int ->
  (html.Addr chunk ∈ Chunks cl ->
   exists l',
     WriteCluster Score chunk cl (at_ l sp p) = Ok (tt, at_ l' sp (p + 4))
     /\ len l' = len l)
  /\ (html.Addr chunk ∉ Chunks cl ->
      findChunk (Chunks cl) (html.Addr chunk) 0 = len (Chunks cl)
      /\ slot (Scores cl) (len (Chunks cl)) = None
      /\ WriteCluster Score chunk cl (at_ l sp p) = Panic IndexOutOfRange).
Proof.
  intros Hsc Hlen Hp Hk Hl. split.
  - intros Hin. destruct (first_position _ _ Hin) as (i & Hi & Hfirst).
    destruct (WriteCluster_at chunk cl i l sp p Hi Hfirst Hsc Hlen Hp Hk Hl)
      as (l' & E & L & _).
    now exists l'.
  - intros Hnot. pose proof (len_nonneg (Chunks cl)). split; [|split].
    + rewrite (findChunk_missing _ _ 0 Hnot) by lia. lia.
    + unfold slot. destruct (0 <=? len (Chunks cl)); [|reflexivity].
      apply lookup_ge_None. unfold len in *. lia.
    + apply WriteCluster_missing; (assumption || lia).
Qed.

Lemma slot_is_Some l j : 0 <= j < len l -> is_Some (slot l j).
Proof.
  intros Hj. unfold slot. destruct (0 <=? j) eqn:E; [|lia].
  apply lookup_lt_is_Some. unfold len in Hj. lia.
Qed.

(** C6. For the chunk at position [i] of a cluster of [n] distinct chunks
    with [n] scores, the previous-score slot holds [Scores[i-1]] when
    [i > 0] and the sentinel -10 otherwise, and the next-score slot holds
    [Scores[i+1]] when [i < n-2] and the sentinel -10 otherwise. *)
Theorem cluster_score_neighbours chunk cl (i : nat) l sp p :
  NoDup (Chunks cl) -> Chunks cl !! i = Some (html.Addr chunk) ->
  len (Scores cl) = len (Chunks cl) -> len (Chunks cl) <= max_int ->
  0 <= p -> p + 4 <= len l -> len l <= max_int ->
  exists l',
    WriteCluster Score chunk cl (at_ l sp p) = Ok (tt, at_ l' sp (p + 4))
    /\ slot l' (p + 2)
       = (if 0 <? Z.of_nat i then slot (Scores cl) (Z.of_nat i - 1) else Some sentinel)
    /\ slot l' (p + 3)
       = (if Z.of_nat i <? len (Chunks cl) - 2
          then slot (Scores cl) (Z.of_nat i + 1) else Some sentinel)
    /\ is_Some (slot l' (p + 2)) /\ is_Some (slot l' (p + 3))
    /\ sentinel = F32.of_int (-10).
Proof.
  intros Hnd Hi Hsc Hlen Hp Hk Hl.
  destruct (WriteCluster_at chunk cl i l sp p Hi (NoDup_first _ _ _ Hnd Hi) Hsc Hlen Hp Hk Hl)
    as (l' & E & L & _ & _ & Sprev & Snext & _).
  exists l'. split; [exact E|]. split; [exact Sprev|]. split; [exact Snext|].
  split; [apply slot_is_Some; lia|]. split; [apply slot_is_Some; lia|reflexivity].
Qed.

End ClusterContext.

(** C1, as the specification words it, fails: with a chunk that is not in
    the cluster the search reaches the end and the encoding panics. *)
Lemma cluster_lookup_miss_panics :
  (html.Addr Sample.outsider ∉ Chunks Sample.four)
  /\ length (Scores Sample.four) = length (Chunks Sample.four)
  /\ WriteCluster Sample.score Sample.outsider Sample.four (at_ Sample.boostVec 0 5)
     = Panic IndexOutOfRange.
Proof.
  split; [decided|split; reflexivity].
Qed.

Lemma cluster_lookup_sample :
  (exists l',
      WriteCluster Sample.score Sample.para Sample.four (at_ Sample.boostVec 0 5)
      = Ok (tt, at_ l' 0 9)
      /\ len l' = len Sample.boostVec)
  /\ findChunk (Chunks Sample.four) (html.Addr Sample.outsider) 0 = 4
  /\ slot (Scores Sample.four) 4 = None
  /\ WriteCluster Sample.score Sample.outsider Sample.four (at_ Sample.boostVec 0 5)
     = Panic IndexOutOfRange.
Proof.
  destruct (cluster_lookup Sample.score Sample.para Sample.four Sample.boostVec 0 5)
    as [Hin _]; [concrete..|].
  destruct (cluster_lookup Sample.score Sample.outsider Sample.four Sample.boostVec 0 5)
    as [_ Hout]; [concrete..|].
  split.
  - apply Hin. decided.
  - apply Hout. decided.
Defined.

Lemma cluster_score_neighbours_sample :
  (exists l',
      WriteCluster Sample.score Sample.h2 Sample.four (at_ Sample.boostVec 0 5)
      = Ok (tt, at_ l' 0 9)
      /\ slot l' 7 = Some (F32.of_int (-10))
      /\ slot l' 8 = Some (F32.of_int 6))
  /\ (exists l',
        WriteCluster Sample.score Sample.para Sample.four (at_ Sample.boostVec 0 5)
        = Ok (tt, at_ l' 0 9)
        /\ slot l' 7 = Some (F32.of_int 6)
        /\ slot l' 8 = Some (F32.of_int (-10)))
  /\ (exists l',
        WriteCluster Sample.score Sample.fourth Sample.four (at_ Sample.boostVec 0 5)
        = Ok (tt, at_ l' 0 9)
        /\ slot l' 7 = Some (F32.of_int 7)
        /\ slot l' 8 = Some (F32.of_int (-10))).
Proof.
  assert (NoDup (Chunks Sample.four)) as Hnd by decided.
  split; [|split].
  - destruct (cluster_score_neighbours Sample.score Sample.h2 Sample.four 0
                Sample.boostVec 0 5 Hnd) as (l' & E & S2 & S3 & _); [concrete..|].
    exists l'. split; [exact E|]. split; [exact S2|exact S3].
  - destruct (cluster_score_neighbours Sample.score Sample.para Sample.four 2
                Sample.boostVec 0 5 Hnd) as (l' & E & S2 & S3 & _); [concrete..|].
    exists l'. split; [exact E|]. split; [exact S2|exact S3].
  - destruct (cluster_score_neighbours Sample.score Sample.fourth Sample.four 3
                Sample.boostVec 0 5 Hnd) as (l' & E & S2 & S3 & _); [concrete..|].
    exists l'. split; [exact E|]. split; [exact S2|exact S3].
Defined.

(** ** Title similarity *)

Lemma isHeadline_spec (tag : string) :
  isHeadline tag = true <-> tag = "h1"%string \/ tag = "h2"%string \/ tag = "h3"%string.
Proof.
  unfold isHeadline. rewrite !orb_true_iff, !bool_decide_eq_true. tauto.
Qed.

Section TitleSimilarity.

Variable Similarity : util.Text -> util.Text -> float32.

(** C9. The title-similarity slot holds the similarity of the chunk's text
    and the title exactly for the tags h1, h2 and h3; for every other tag
    the slot is skipped: the vector is left as it was, whatever the title,
    so a zero slot stays zero. *)
Theorem title_similarity_slot chunk title l sp p :
  0 <= p < len l -> len l <= max_int ->
  (html.Data (html.Base chunk) = "h1"%string
   \/ html.Data (html.Base chunk) = "h2"%string
   \/ html.Data (html.Base chunk) = "h3"%string ->
   exists l',
     WriteTitleSimilarity Similarity chunk title (at_ l sp p) = Ok (tt, at_ l' sp (p + 1))
     /\ slot l' p = Some (Similarity (html.Text chunk) title)
     /\ forall j, j <> p -> slot l' j = slot l j)
  /\ (html.Data (html.Base chunk) <> "h1"%string ->
      html.Data (html.Base chunk) <> "h2"%string ->
      html.Data (html.Base chunk) <> "h3"%string ->
      WriteTitleSimilarity Similarity chunk title (at_ l sp p) = Ok (tt, at_ l sp (p + 1))).
Proof.
  intros Hp Hl. pose proof min_int_neg. unfold WriteTitleSimilarity. split.
  - intros Htag. apply isHeadline_spec in Htag. rewrite Htag.
    eexists. split; [now apply Write_at|]. split; [|intros j Hj]; slots.
  - intros H1 H2 H3.
    destruct (isHeadline _) eqn:E; [apply isHeadline_spec in E; tauto|].
    apply Skip_at. lia.
Qed.

End TitleSimilarity.

Lemma title_similarity_slot_sample :
  (exists l',
      WriteTitleSimilarity Sample.similarity Sample.h2 Sample.text (at_ Sample.boostVec 0 9)
      = Ok (tt, at_ l' 0 10)
      /\ slot l' 9 = Some (Sample.similarity Sample.text Sample.text))
  /\ WriteTitleSimilarity Sample.similarity Sample.para Sample.text (at_ Sample.boostVec 0 9)
     = Ok (tt, at_ Sample.boostVec 0 10).
Proof.
  split.
  - destruct (title_similarity_slot Sample.similarity Sample.h2 Sample.text Sample.boostVec 0 9)
      as [Hh _]; [concrete..|].
    destruct Hh as (l' & E & S & _); [right; left; reflexivity|].
    exists l'. split; [exact E|exact S].
  - destruct (title_similarity_slot Sample.similarity Sample.para Sample.text Sample.boostVec 0 9)
      as [_ Hp]; [concrete..|].
    apply Hp; discriminate.
Defined.

(** ** The slot layout of the boost vector *)

Section BoostLayout.

Variable Score : cluster -> float32.
Variable Similarity : util.Text -> util.Text -> float32.
Variables goodQualClass poorQualClass : string -> bool.

Lemma advances_WriteChunk chunk : advances (WriteChunk goodQualClass poorQualClass chunk) 5.
Proof.
  unfold WriteChunk. one_slot 4. one_slot 3. one_slot 2. one_slot 1. apply advances_Write.
Qed.

Lemma advances_WriteCluster chunk cl :
  html.Addr chunk ∈ Chunks cl ->
  len (Scores cl) = len (Chunks cl) -> len (Chunks cl) <= max_int ->
  advances (WriteCluster Score chunk cl) 4.
Proof.
  intros Hin Hsc Hlen l sp p Hp Hk Hl.
  destruct (first_position _ _ Hin) as (i & Hi & Hfirst).
  destruct (WriteCluster_at Score chunk cl i l sp p Hi Hfirst Hsc Hlen Hp Hk Hl)
    as (l' & E & L & _).
  now exists l'.
Qed.

Lemma advances_WriteTitleSimilarity chunk title :
  advances (WriteTitleSimilarity Similarity chunk title) 1.
Proof.
  unfold WriteTitleSimilarity. destruct (isHeadline _).
  - apply advances_Write.
  - apply advances_Skip. lia.
Qed.

(** The three boost sub-encoders fill the ten slots of a boost vector. *)
Lemma boost_slot_counts chunk cl title :
  html.Addr chunk ∈ Chunks cl ->
  len (Scores cl) = len (Chunks cl) -> len (Chunks cl) <= max_int ->
  advances
    (WriteChunk goodQualClass poorQualClass chunk ;;
     WriteCluster Score chunk cl ;;
     WriteTitleSimilarity Similarity chunk title) boostFeatureCap.
Proof.
  intros Hin Hsc Hlen.
  apply (advances_seq _ _ 5 5); [lia | lia | apply advances_WriteChunk |].
  apply (advances_seq _ _ 4 1); [lia | lia | now apply advances_WriteCluster |].
  apply advances_WriteTitleSimilarity.
Qed.

End BoostLayout.

(** * Further properties of the writer and the encoders *)

(** ** The writer primitives *)

(** X1. A write that completes found a bound vector and an index inside
    it; it keeps the vector's length and capacity, stores the value at that
    index, changes no other slot, and moves the cursor by [skip] when
    [skip] is positive and not at all otherwise. *)
Theorem write_frame val off skip fw fw' :
  write val off skip fw = Ok (tt, fw') ->
  exists v v' old,
    fw_feature fw = Some v /\ fw_feature fw' = Some v'
    /\ 0 <= int_add (Pos fw) off < len (elems v)
    /\ len (elems v') = len (elems v) /\ cap v' = cap v
    /\ slot (elems v) (int_add (Pos fw) off) = Some old
    /\ slot (elems v') (int_add (Pos fw) off) = Some (store val old)
    /\ (forall j, j <> int_add (Pos fw) off -> slot (elems v') j = slot (elems v) j)
    /\ Pos fw' = (if 0 <? skip then int_add (Pos fw) skip else Pos fw).
Proof.
  unfold write. destruct (fw_feature fw) as [v|] eqn:Ev; [|discriminate].
  set (idx := int_add (Pos fw) off).
  destruct ((0 <=? idx) && (idx <? len (elems v))) eqn:E; [|discriminate].
  assert (0 <= idx < len (elems v)) as Hidx by lia.
  destruct (slot_is_Some (elems v) idx Hidx) as [old Hold].
  assert (elems v !! Z.to_nat idx = Some old) as Hlk.
  { unfold slot in Hold. destruct (0 <=? idx); [exact Hold|discriminate]. }
  rewrite Hlk. simpl default.
  set (l' := <[Z.to_nat idx := store val old]> (elems v)).
  assert (len l' = len (elems v)) as Hlen by (unfold l', len; now rewrite length_insert).
  assert (slot l' idx = Some (store val old)) as Hnew.
  { unfold slot, l'. destruct (0 <=? idx) eqn:E0; [|lia].
    apply list_lookup_insert_eq. unfold len in Hidx. lia. }
  assert (forall j, j <> idx -> slot l' j = slot (elems v) j) as Hframe.
  { intros j Hj. unfold slot, l'. destruct (0 <=? j) eqn:E0; [|reflexivity].
    apply list_lookup_insert_ne. lia. }
  intros H. exists v, (mkFeature l' (spare v)), old.
  assert (cap (mkFeature l' (spare v)) = cap v) as Hcap by (unfold cap; simpl; lia).
  destruct (0 <? skip); unfold Skip in H; simpl in H; injection H as <-; simpl;
    repeat split; auto; lia.
Qed.

Lemma write_frame_sample :
  exists v',
    fw_feature (at_ (put Sample.boostVec 3 (VInt 7)) 0 5) = Some v'
    /\ slot (elems v') 3 = Some (F32.of_int 7)
    /\ slot (elems v') 4 = slot Sample.boostVec 4.
Proof.
  destruct (write_frame (VInt 7) 1 3 (at_ Sample.boostVec 0 2)
              (at_ (put Sample.boostVec 3 (VInt 7)) 0 5))
    as (v & v' & old & Ev & Ev' & _ & _ & _ & Hold & Hnew & Hframe & _);
    [vm_compute; reflexivity|].
  injection Ev as <-. exists v'. split; [exact Ev'|].
  split.
  - vm_compute in Hold. injection Hold as <-. exact Hnew.
  - apply (Hframe 4). vm_compute. discriminate.
Defined.

(** X2. The one failure of a write is the bounds check: it panics with
    an index out of range exactly when no vector is bound or the index
    [Pos + off] lies outside the bound vector, whatever the value and the
    skip; otherwise it completes. *)
Theorem write_bounds val off skip fw :
  (write val off skip fw = Panic IndexOutOfRange
   <-> ~ exists v, fw_feature fw = Some v /\ 0 <= int_add (Pos fw) off < len (elems v))
  /\ ((exists fw', write val off skip fw = Ok (tt, fw'))
      <-> exists v, fw_feature fw = Some v /\ 0 <= int_add (Pos fw) off < len (elems v))
  /\ (forall p, write val off skip fw = Panic p -> p = IndexOutOfRange).
Proof.
  unfold write. destruct (fw_feature fw) as [v|].
  - destruct ((0 <=? int_add (Pos fw) off) && (int_add (Pos fw) off <? len (elems v))) eqn:E.
    + assert (0 <= int_add (Pos fw) off < len (elems v)) as Hidx by lia.
      split; [|split].
      * split; [|intros Hn; exfalso; apply Hn; now exists v].
        destruct (0 <? skip); discriminate.
      * split; [intros _; now exists v|intros _].
        destruct (0 <? skip); eexists; reflexivity.
      * intros p. destruct (0 <? skip); discriminate.
    + assert (~ (0 <= int_add (Pos fw) off < len (elems v))) as Hidx by lia.
      split; [|split].
      * split; [intros _ (v0 & [= <-] & H); contradiction|reflexivity].
      * split; [intros (fw' & H); discriminate|intros (v0 & [= <-] & H); contradiction].
      * now intros p [= <-].
  - split; [|split].
    + split; [intros _ (v0 & H & _); discriminate|reflexivity].
    + split; [intros (fw' & H); discriminate|intros (v0 & H & _); discriminate].
    + now intros p [= <-].
Qed.

(** X3. A value whose dynamic type is none of [int], [float32] and [bool]
    falls through the type switch: [Write] stores nothing, the vector is
    left as it was, and the cursor still moves on by one. *)
Theorem Write_unsupported_type l sp p :
  0 <= p < len l -> len l <= max_int ->
  Write VOther (at_ l sp p) = Ok (tt, at_ l sp (p + 1)).
Proof.
  intros Hp Hl. rewrite Write_at by assumption. unfold put.
  destruct (slot_is_Some l p Hp) as [old Hold]. unfold slot in Hold.
  destruct (0 <=? p); [|discriminate]. rewrite Hold. simpl.
  now rewrite list_insert_id.
Qed.

Lemma Write_unsupported_type_sample :
  Write VOther (at_ Sample.scores 0 2) = Ok (tt, at_ Sample.scores 0 3).
Proof. apply (Write_unsupported_type Sample.scores 0 2); concrete. Defined.

(** X4. [Skip] checks nothing: it completes on every writer and leaves
    the vector alone, also past the end of the vector. The overrun shows at
    the next [Assign], which succeeds after a skip exactly when the cursor
    landed on the capacity. *)
Theorem Skip_then_Assign cur p n f :
  min_int <= p + n <= max_int ->
  Skip n (mkWriter (Some cur) p) = Ok (tt, mkWriter (Some cur) (p + n))
  /\ (p + n = cap cur ->
      (Skip n ;; Assign f) (mkWriter (Some cur) p) = Ok (tt, mkWriter f 0))
  /\ (p + n <> cap cur ->
      (Skip n ;; Assign f) (mkWriter (Some cur) p) = Panic PartiallyFilled).
Proof.
  intros Hr.
  assert (Skip n (mkWriter (Some cur) p) = Ok (tt, mkWriter (Some cur) (p + n))) as E
    by (unfold Skip; simpl; now rewrite int_add_small).
  split; [exact E|]. split; intros H; rewrite (bind_Ok _ _ _ _ _ E).
  - now apply (Assign_full _ _ cur).
  - now apply (Assign_partial _ _ cur).
Qed.

Lemma Skip_then_Assign_sample :
  (Skip 4 ;; Assign None) (mkWriter (Some (mkFeature Sample.boostVec 0)) 6)
  = Ok (tt, mkWriter None 0)
  /\ (Skip 5 ;; Assign None) (mkWriter (Some (mkFeature Sample.boostVec 0)) 6)
     = Panic PartiallyFilled.
Proof.
  split.
  - apply (proj1 (proj2 (Skip_then_Assign (mkFeature Sample.boostVec 0) 6 4 None
                           ltac:(concrete)))).
    reflexivity.
  - apply (proj2 (proj2 (Skip_then_Assign (mkFeature Sample.boostVec 0) 6 5 None
                           ltac:(concrete)))).
    discriminate.
Defined.

(** ** Writes stay inside the encoder's slots *)

Lemma within_ret : writes_within (mret tt) 0.
Proof. intros l sp p _ _ _. exists l. rewrite Z.add_0_r. now repeat split. Qed.

Lemma within_Skip n : 0 <= n -> writes_within (Skip n) n.
Proof.
  intros Hn l sp p Hp Hk Hl. exists l. split; [|now split].
  apply Skip_at. pose proof min_int_neg. lia.
Qed.

Lemma within_Write val : writes_within (Write val) 1.
Proof.
  intros l sp p Hp Hk Hl. exists (put l p val).
  split; [apply Write_at; lia|]. split; [apply len_put|].
  intros j Hj. apply slot_put_ne; lia.
Qed.

Lemma within_seq m1 m2 k1 k2 :
  0 <= k1 -> 0 <= k2 -> writes_within m1 k1 -> writes_within m2 k2 ->
  writes_within (m1 ;; m2) (k1 + k2).
Proof.
  intros Hk1 Hk2 H1 H2 l sp p Hp Hk Hl.
  destruct (H1 l sp p) as (l1 & E1 & L1 & F1); [lia..|].
  destruct (H2 l1 sp (p + k1)) as (l2 & E2 & L2 & F2); [lia..|].
  exists l2. split; [|split; [congruence|]].
  - rewrite (bind_Ok _ _ _ _ _ E1), E2. now rewrite Z.add_assoc.
  - intros j Hj. rewrite F2 by lia. apply F1. lia.
Qed.

Lemma within_WriteAt_Skip val off n :
  0 <= off < n -> writes_within (WriteAt val off ;; Skip n) n.
Proof.
  intros Ho l sp p Hp Hk Hl. exists (put l (p + off) val).
  split; [|split; [apply len_put|]].
  - rewrite (bind_Ok _ _ _ _ _ (WriteAt_at l sp p val off ltac:(lia) ltac:(lia) ltac:(lia) Hl)).
    apply Skip_at. pose proof min_int_neg. lia.
  - intros j Hj. apply slot_put_ne; lia.
Qed.

(** [Write val ;; m] where [m] stays within [k] slots. *)
Ltac one_within k := apply (within_seq _ _ 1 k); [lia | lia | apply within_Write |].

Lemma within_WriteElementType chunk : writes_within (WriteElementType chunk) 4.
Proof. apply within_WriteAt_Skip, elementTypes_range. Qed.

Lemma within_WriteParentType chunk : writes_within (WriteParentType chunk) 4.
Proof.
  unfold WriteParentType. destruct (html.Parent (html.Base chunk)) as [parent|].
  - apply within_WriteAt_Skip, parentTypes_range.
  - apply (within_seq _ _ 0 4); [lia | lia | apply within_ret | apply within_Skip; lia].
Qed.

Lemma within_WriteSiblingTypes chunk : writes_within (WriteSiblingTypes chunk) 7.
Proof.
  unfold WriteSiblingTypes. destruct (siblingCounts _) as [count types].
  one_within 6. one_within 5. one_within 4. one_within 3.
  destruct (0 <? count).
  - one_within 2. one_within 1. apply within_Write.
  - apply within_Skip. lia.
Qed.

Lemma within_neighbour (o : option html.Neighbour) blk :
  writes_within
    (match o with
     | Some n =>
         Write (VBool (bool_decide (html.nBlock n = blk))) ;;
         Write (VInt (util.Words (html.nText n))) ;;
         Write (VInt (util.Sentences (html.nText n)))
     | None => Skip 3
     end) 3.
Proof.
  destruct o as [n|].
  - one_within 2. one_within 1. apply within_Write.
  - apply within_Skip. lia.
Qed.

Lemma within_classStat (r : option html.TextStat) :
  writes_within
    (match r with
     | Some best =>
         Write (VBool true) ;;
         Write (VFloat32 (F32.div (F32.of_int (html.Words best)) (F32.of_int (html.Count best)))) ;;
         Write (VFloat32 (F32.div (F32.of_int (html.Sentences best)) (F32.of_int (html.Count best))))
     | None => Write (VBool false) ;; Skip 2
     end) 3.
Proof.
  destruct r as [best|].
  - one_within 2. one_within 1. apply within_Write.
  - one_within 2. apply within_Skip. lia.
Qed.

Lemma within_WriteClassStat chunk classes :
  counted classes (html.Classes chunk) = true ->
  writes_within (WriteClassStat chunk classes) 3.
Proof.
  intros Hc l sp p Hp Hk Hl. unfold WriteClassStat.
  destruct (bestClassStat_total classes (html.Classes chunk) None Hc) as (r & E & _);
    [discriminate|].
  erewrite bind_Ok; [|unfold lift; rewrite E; reflexivity].
  now apply within_classStat.
Qed.

Lemma within_WriteClusterStat chunk clusters :
  writes_within (WriteClusterStat chunk clusters) 5.
Proof.
  unfold WriteClusterStat. destruct (clusters !! html.Addr chunk) as [stat|].
  - one_within 4. one_within 3. one_within 2. one_within 1. apply within_Write.
  - apply within_Skip. lia.
Qed.

Section PassFrame.

Variables AncestorArticle AncestorAside AncestorBlockquote AncestorList : Z.

Lemma within_WriteAncestors chunk :
  writes_within
    (WriteAncestors AncestorArticle AncestorAside AncestorBlockquote AncestorList chunk) 4.
Proof. unfold WriteAncestors. one_within 3. one_within 2. one_within 1. apply within_Write. Qed.

Lemma within_WriteTextStat chunk : writes_within (WriteTextStat chunk) 3.
Proof. unfold WriteTextStat. one_within 2. one_within 1. apply within_Write. Qed.

Lemma within_WriteTextStatSiblings chunk : writes_within (WriteTextStatSiblings chunk) 6.
Proof.
  unfold WriteTextStatSiblings.
  apply (within_seq _ _ 3 3); [lia | lia | apply within_neighbour..].
Qed.

(** X5. Encoding a chunk into a vector that is longer than the 36 slots
    it takes (a row of a larger buffer, say) completes, keeps the vector's
    length and changes no slot before the cursor or from [cursor + 36] on,
    whatever branches the eight sub-encoders take. *)
Theorem chunkPass_within chunk classes clusters l sp p :
  counted classes (html.Classes chunk) = true ->
  0 <= p -> p + 36 <= len l -> len l <= max_int ->
  exists l',
    chunkPass AncestorArticle AncestorAside AncestorBlockquote AncestorList
      chunk classes clusters (at_ l sp p)
    = Ok (tt, at_ l' sp (p + 36))
    /\ len l' = len l
    /\ forall j, j < p \/ p + 36 <= j -> slot l' j = slot l j.
Proof.
  intros Hc. revert l sp p.
  change (writes_within
            (chunkPass AncestorArticle AncestorAside AncestorBlockquote AncestorList
               chunk classes clusters) 36).
  unfold chunkPass.
  apply (within_seq _ _ 4 32); [lia | lia | apply within_WriteElementType |].
  apply (within_seq _ _ 4 28); [lia | lia | apply within_WriteParentType |].
  apply (within_seq _ _ 7 21); [lia | lia | apply within_WriteSiblingTypes |].
  apply (within_seq _ _ 4 17); [lia | lia | apply within_WriteAncestors |].
  apply (within_seq _ _ 3 14); [lia | lia | apply within_WriteTextStat |].
  apply (within_seq _ _ 6 8); [lia | lia | apply within_WriteTextStatSiblings |].
  apply (within_seq _ _ 3 5); [lia | lia | now apply within_WriteClassStat |].
  apply within_WriteClusterStat.
Qed.

End PassFrame.

Lemma chunkPass_within_sample :
  exists l',
    chunkPass 1 2 4 8 Sample.middle Sample.classes Sample.clusters
      (at_ (Sample.scores ++ Sample.chunkVec ++ Sample.scores) 0 4)
    = Ok (tt, at_ l' 0 40)
    /\ slot l' 3 = Some (F32.of_int 8)
    /\ slot l' 40 = Some (F32.of_int 5).
Proof.
  destruct (chunkPass_within 1 2 4 8 Sample.middle Sample.classes Sample.clusters
              (Sample.scores ++ Sample.chunkVec ++ Sample.scores) 0 4)
    as (l' & E & _ & F); [concrete..|].
  exists l'. split; [exact E|]. split.
  - rewrite (F 3); [reflexivity|left; concrete].
  - rewrite (F 40); [reflexivity|right; concrete].
Defined.

(** ** Ancestor flags *)

Lemma land_pow2_eqb (a k : Z) : 0 <= k -> (Z.land a (2 ^ k) =? 0) = negb (Z.testbit a k).
Proof.
  intros Hk. destruct (Z.testbit a k) eqn:E; simpl.
  - apply Z.eqb_neq. intros H0.
    assert (Z.testbit (Z.land a (2 ^ k)) k = true) as Hb
      by (rewrite Z.land_spec, E, Z.pow2_bits_true by assumption; reflexivity).
    rewrite H0, Z.bits_0 in Hb. discriminate.
  - apply Z.eqb_eq. apply Z.bits_inj'. intros n Hn.
    rewrite Z.land_spec, Z.bits_0.
    destruct (Z.eq_dec k n) as [<-|Hne].
    + now rewrite E.
    + rewrite (Z.pow2_bits_false k n) by assumption. apply andb_false_r.
Qed.

Lemma flag_slot l i b : 0 <= i < len l -> slot (put l i (VBool b)) i = Some (flag b).
Proof. intros Hi. rewrite slot_put_eq by (lia || discriminate). reflexivity. Qed.

Section AncestorFlags.

Variables AncestorArticle AncestorAside AncestorBlockquote AncestorList : Z.

Lemma WriteAncestors_at chunk l sp p :
  0 <= p -> p + 4 <= len l -> len l <= max_int ->
  exists l',
    WriteAncestors AncestorArticle AncestorAside AncestorBlockquote AncestorList chunk
      (at_ l sp p)
    = Ok (tt, at_ l' sp (p + 4))
    /\ slot l' p = Some (flag (negb (Z.land (html.Ancestors chunk) AncestorArticle =? 0)))
    /\ slot l' (p + 1) = Some (flag (negb (Z.land (html.Ancestors chunk) AncestorAside =? 0)))
    /\ slot l' (p + 2)
       = Some (flag (negb (Z.land (html.Ancestors chunk) AncestorBlockquote =? 0)))
    /\ slot l' (p + 3) = Some (flag (negb (Z.land (html.Ancestors chunk) AncestorList =? 0))).
Proof.
  intros Hp Hk Hl. pose proof min_int_neg. unfold WriteAncestors.
  eexists. split; [do 3 run_write; last_write|].
  repeat split; slots.
Qed.

End AncestorFlags.

(** X6. With single-bit masks [2^a], [2^s], [2^b] and [2^t] the four
    ancestor slots read the chunk's ancestor bits back: each holds 1.0 when
    its bit of [Ancestors] is set and 0.0 when it is clear; a chunk with no
    ancestor bit set gets four zeros whatever the masks are. *)
Theorem WriteAncestors_bits (a s b t : Z) (m1 m2 m3 m4 : Z) chunk l sp p :
  0 <= a -> 0 <= s -> 0 <= b -> 0 <= t ->
  0 <= p -> p + 4 <= len l -> len l <= max_int ->
  (exists l',
      WriteAncestors (2 ^ a) (2 ^ s) (2 ^ b) (2 ^ t) chunk (at_ l sp p)
      = Ok (tt, at_ l' sp (p + 4))
      /\ slot l' p = Some (flag (Z.testbit (html.Ancestors chunk) a))
      /\ slot l' (p + 1) = Some (flag (Z.testbit (html.Ancestors chunk) s))
      /\ slot l' (p + 2) = Some (flag (Z.testbit (html.Ancestors chunk) b))
      /\ slot l' (p + 3) = Some (flag (Z.testbit (html.Ancestors chunk) t)))
  /\ (html.Ancestors chunk = 0 ->
      exists l',
        WriteAncestors m1 m2 m3 m4 chunk (at_ l sp p) = Ok (tt, at_ l' sp (p + 4))
        /\ slot l' p = Some F32.zero /\ slot l' (p + 1) = Some F32.zero
        /\ slot l' (p + 2) = Some F32.zero /\ slot l' (p + 3) = Some F32.zero).
Proof.
  intros Ha Hs Hb Ht Hp Hk Hl. split.
  - destruct (WriteAncestors_at (2 ^ a) (2 ^ s) (2 ^ b) (2 ^ t) chunk l sp p Hp Hk Hl)
      as (l' & E & S0 & S1 & S2 & S3).
    rewrite !land_pow2_eqb, !negb_involutive in * by assumption.
    now exists l'.
  - intros Hz.
    destruct (WriteAncestors_at m1 m2 m3 m4 chunk l sp p Hp Hk Hl)
      as (l' & E & S0 & S1 & S2 & S3).
    rewrite Hz, !Z.land_0_l in *. now exists l'.
Qed.

Lemma WriteAncestors_bits_sample :
  exists l',
    WriteAncestors 1 2 4 8 Sample.middle (at_ Sample.chunkVec 0 15) = Ok (tt, at_ l' 0 19)
    /\ slot l' 15 = Some F32.one /\ slot l' 16 = Some F32.zero
    /\ slot l' 17 = Some F32.one /\ slot l' 18 = Some F32.zero.
Proof.
  destruct (WriteAncestors_bits 0 1 2 3 0 0 0 0 Sample.middle Sample.chunkVec 0 15)
    as [H _]; [concrete..|].
  exact H.
Defined.

(** ** Neighbour text statistics *)

Lemma neighbour_at (o : option html.Neighbour) blk l sp p :
  0 <= p -> p + 3 <= len l -> len l <= max_int ->
  exists l',
    (match o with
     | Some n =>
         Write (VBool (bool_decide (html.nBlock n = blk))) ;;
         Write (VInt (util.Words (html.nText n))) ;;
         Write (VInt (util.Sentences (html.nText n)))
     | None => Skip 3
     end) (at_ l sp p)
    = Ok (tt, at_ l' sp (p + 3))
    /\ len l' = len l
    /\ neighbourSlots o blk l l' p
    /\ (o = None -> l' = l)
    /\ forall j, j < p \/ p + 3 <= j -> slot l' j = slot l j.
Proof.
  intros Hp Hk Hl. pose proof min_int_neg. destruct o as [n|].
  - eexists. split; [do 2 run_write; last_write|].
    split; [now rewrite !len_put|]. split; [|split; [discriminate|]].
    + repeat split; slots.
    + intros j Hj. slots.
  - exists l. split; [last_skip|]. now repeat split.
Qed.

(** X7. The neighbour statistics take six slots, three per neighbour. A
    neighbour that is there gives the same-block flag (1.0 when its block
    is the chunk's own), its word count and its sentence count; for one
    that is missing the three slots are skipped and keep what the vector
    held, so a chunk without neighbours leaves the vector as it was. *)
Theorem WriteTextStatSiblings_slots chunk l sp p :
  0 <= p -> p + 6 <= len l -> len l <= max_int ->
  exists l',
    WriteTextStatSiblings chunk (at_ l sp p) = Ok (tt, at_ l' sp (p + 6))
    /\ neighbourSlots (html.Prev chunk) (html.Block chunk) l l' p
    /\ neighbourSlots (html.Next chunk) (html.Block chunk) l l' (p + 3)
    /\ (html.Prev chunk = None -> html.Next chunk = None -> l' = l).
Proof.
  intros Hp Hk Hl. unfold WriteTextStatSiblings.
  destruct (neighbour_at (html.Prev chunk) (html.Block chunk) l sp p)
    as (l1 & E1 & L1 & S1 & N1 & F1); [lia..|].
  destruct (neighbour_at (html.Next chunk) (html.Block chunk) l1 sp (p + 3))
    as (l2 & E2 & L2 & S2 & N2 & F2); [lia..|].
  exists l2. rewrite (bind_Ok _ _ _ _ _ E1), E2.
  replace (p + 3 + 3) with (p + 6) by lia.
  split; [reflexivity|]. split; [|split].
  - unfold neighbourSlots in *. destruct (html.Prev chunk).
    + destruct S1 as (A & B & C). rewrite !F2 by lia. now repeat split.
    + destruct S1 as (A & B & C). rewrite !F2 by lia. now repeat split.
  - unfold neighbourSlots in *. destruct (html.Next chunk).
    + exact S2.
    + destruct S2 as (A & B & C). rewrite A, B, C, !F1 by lia. now repeat split.
  - intros HP HN. rewrite (N2 HN). exact (N1 HP).
Qed.

Lemma WriteTextStatSiblings_slots_sample :
  (exists l',
      WriteTextStatSiblings Sample.middle (at_ Sample.chunkVec 0 22) = Ok (tt, at_ l' 0 28)
      /\ slot l' 22 = Some F32.one
      /\ slot l' 23 = Some (F32.of_int 4)
      /\ slot l' 24 = Some (F32.of_int 2)
      /\ slot l' 25 = Some F32.zero
      /\ slot l' 26 = Some (F32.of_int 6)
      /\ slot l' 27 = Some (F32.of_int 1))
  /\ WriteTextStatSiblings Sample.h2 (at_ (Sample.scores ++ Sample.scores) 0 1)
     = Ok (tt, at_ (Sample.scores ++ Sample.scores) 0 7).
Proof.
  split.
  - destruct (WriteTextStatSiblings_slots Sample.middle Sample.chunkVec 0 22)
      as (l' & E & (A & B & C) & (D & F & G) & _); [concrete..|].
    exists l'. repeat split; assumption.
  - destruct (WriteTextStatSiblings_slots Sample.h2 (Sample.scores ++ Sample.scores) 0 1)
      as (l' & E & _ & _ & N); [concrete..|].
    rewrite (N eq_refl eq_refl) in E. exact E.
Defined.

(** ** Same-cluster statistics *)

Lemma div_by_zero_not_finite (x : float32) : finite (F32.div x (F32.of_int 0)) = false.
Proof. destruct x; reflexivity. Qed.

(** X8. A chunk without entry in the cluster map has its five slots
    skipped: the vector is left as it was. With an entry the slots hold
    the word, sentence and occurrence counts and the two float averages;
    the averages are float divisions, so an occurrence count of 0 gives no
    panic here but two slots that are an infinity or a NaN. *)
Theorem WriteClusterStat_slots chunk clusters l sp p :
  0 <= p -> p + 5 <= len l -> len l <= max_int ->
  (clusters !! html.Addr chunk = None ->
   WriteClusterStat chunk clusters (at_ l sp p) = Ok (tt, at_ l sp (p + 5)))
  /\ (forall stat,
         clusters !! html.Addr chunk = Some stat ->
         exists l',
           WriteClusterStat chunk clusters (at_ l sp p) = Ok (tt, at_ l' sp (p + 5))
           /\ slot l' p = Some (F32.of_int (html.Words stat))
           /\ slot l' (p + 1) = Some (F32.of_int (html.Sentences stat))
           /\ slot l' (p + 2) = Some (F32.of_int (html.Count stat))
           /\ slot l' (p + 3)
              = Some (F32.div (F32.of_int (html.Words stat)) (F32.of_int (html.Count stat)))
           /\ slot l' (p + 4)
              = Some (F32.div (F32.of_int (html.Sentences stat))
                        (F32.of_int (html.Count stat)))
           /\ (html.Count stat = 0 ->
               exists x y,
                 slot l' (p + 3) = Some x /\ finite x = false
                 /\ slot l' (p + 4) = Some y /\ finite y = false)).
Proof.
  intros Hp Hk Hl. pose proof min_int_neg. unfold WriteClusterStat. split.
  - intros ->. last_skip.
  - intros stat ->. eexists. split; [do 4 run_write; last_write|].
    do 5 (split; [slots|]).
    intros Hz. rewrite Hz. do 2 eexists.
    split; [slots|]. split; [apply div_by_zero_not_finite|].
    split; [slots|apply div_by_zero_not_finite].
Qed.

Lemma WriteClusterStat_slots_sample :
  WriteClusterStat Sample.h2 Sample.clusters (at_ Sample.chunkVec 0 31)
  = Ok (tt, at_ Sample.chunkVec 0 36)
  /\ (exists l',
        WriteClusterStat Sample.para Sample.clusters (at_ Sample.chunkVec 0 31)
        = Ok (tt, at_ l' 0 36)
        /\ slot l' 31 = Some (F32.of_int 12)
        /\ slot l' 34 = Some (F32.div (F32.of_int 12) (F32.of_int 2)))
  /\ (exists l' x,
        WriteClusterStat Sample.para {[ 3%positive := html.mkTextStat 5 1 0 ]}
          (at_ Sample.chunkVec 0 31)
        = Ok (tt, at_ l' 0 36)
        /\ slot l' 34 = Some x /\ finite x = false).
Proof.
  split; [|split].
  - destruct (WriteClusterStat_slots Sample.h2 Sample.clusters Sample.chunkVec 0 31)
      as [H _]; [concrete..|].
    apply H. reflexivity.
  - destruct (WriteClusterStat_slots Sample.para Sample.clusters Sample.chunkVec 0 31)
      as [_ H]; [concrete..|].
    destruct (H (html.mkTextStat 12 3 2) eq_refl) as (l' & E & S0 & _ & _ & S3 & _).
    exists l'. split; [exact E|]. split; [exact S0|exact S3].
  - destruct (WriteClusterStat_slots Sample.para {[ 3%positive := html.mkTextStat 5 1 0 ]}
                Sample.chunkVec 0 31) as [_ H]; [concrete..|].
    destruct (H (html.mkTextStat 5 1 0) eq_refl) as (l' & E & _ & _ & _ & _ & _ & Z).
    destruct (Z eq_refl) as (x & _ & Sx & Fx & _).
    exists l', x. split; [exact E|]. split; [exact Sx|exact Fx].
Defined.

(** ** The chunk part of the boost vector *)

Lemma foldl_orb_existsb (f : string -> bool) (cs : list string) : forall acc,
  foldl (fun acc class => acc || f class) acc cs = acc || existsb f cs.
Proof.
  induction cs as [|c cs IH]; intros acc; simpl.
  - now rewrite orb_false_r.
  - rewrite IH. now rewrite orb_assoc.
Qed.

Lemma slot_put_old l i val old :
  slot l i = Some old -> slot (put l i val) i = Some (store val old).
Proof.
  unfold slot, put. destruct (0 <=? i) eqn:E; [|discriminate]. intros H.
  rewrite H. simpl. apply list_lookup_insert_eq. now apply lookup_lt_Some in H.
Qed.

Section BoostChunk.

Variables goodQualClass poorQualClass : string -> bool.

(** X9. The chunk part of the boost vector takes five slots: the link
    text first, then the word and sentence counts, then the two class
    flags. The good-quality flag is 1.0 exactly when one of the chunk's
    classes is matched by the good-quality matcher, the poor-quality flag
    likewise and independently; a chunk without classes gets two zeros. *)
Theorem WriteChunk_slots chunk l sp p old :
  0 <= p -> p + 5 <= len l -> len l <= max_int -> slot l p = Some old ->
  exists l',
    WriteChunk goodQualClass poorQualClass chunk (at_ l sp p) = Ok (tt, at_ l' sp (p + 5))
    /\ slot l' p = Some (store (html.LinkText chunk) old)
    /\ slot l' (p + 1) = Some (F32.of_int (util.Words (html.Text chunk)))
    /\ slot l' (p + 2) = Some (F32.of_int (util.Sentences (html.Text chunk)))
    /\ slot l' (p + 3) = Some (flag (existsb goodQualClass (html.Classes chunk)))
    /\ slot l' (p + 4) = Some (flag (existsb poorQualClass (html.Classes chunk)))
    /\ (html.Classes chunk = [] ->
        slot l' (p + 3) = Some F32.zero /\ slot l' (p + 4) = Some F32.zero).
Proof.
  intros Hp Hk Hl Hold. pose proof min_int_neg. unfold WriteChunk.
  rewrite !foldl_orb_existsb. simpl orb.
  eexists. split; [do 4 run_write; last_write|].
  split; [repeat (rewrite slot_put_ne by lia); now apply slot_put_old|].
  do 4 (split; [slots|]).
  intros ->. split; slots.
Qed.

End BoostChunk.

Lemma WriteChunk_slots_sample :
  exists l',
    WriteChunk (fun c => bool_decide (c = "main"%string)) (fun c => bool_decide (c = "nav"%string))
      Sample.middle (at_ Sample.boostVec 0 0)
    = Ok (tt, at_ l' 0 5)
    /\ slot l' 0 = Some F32.one
    /\ slot l' 1 = Some (F32.of_int 3)
    /\ slot l' 2 = Some (F32.of_int 1)
    /\ slot l' 3 = Some F32.one
    /\ slot l' 4 = Some F32.one.
Proof.
  destruct (WriteChunk_slots (fun c => bool_decide (c = "main"%string))
              (fun c => bool_decide (c = "nav"%string))
              Sample.middle Sample.boostVec 0 0 F32.zero)
    as (l' & E & S0 & S1 & S2 & S3 & S4 & _); [concrete..|].
  exists l'. repeat split; assumption.
Defined.

(** ** The class comparison: when it panics and what it selects *)

Lemma bestClassStat_panics_from classes cs : forall b,
  bestClassStat classes cs (Some b) = Panic DivideByZero
  <-> found classes cs <> [] /\ (uncounted b \/ Exists uncounted (found classes cs)).
Proof.
  unfold uncounted.
  induction cs as [|class rest IH]; intros b.
  - simpl. split; [discriminate|]. now intros [H _].
  - rewrite found_cons. simpl bestClassStat.
    destruct (classes !! class) as [stat|]; [|apply IH].
    unfold int_quot.
    destruct (Z.eqb_spec (html.Count stat) 0) as [Hs|Hs].
    { split; [intros _|reflexivity]. split; [discriminate|].
      right. now apply Exists_cons_hd. }
    destruct (Z.eqb_spec (html.Count b) 0) as [Hb|Hb].
    { split; [intros _|reflexivity]. split; [discriminate|now left]. }
    match goal with |- context [bestClassStat classes rest ?o] => set (next := o) end.
    assert (exists b', next = Some b' /\ html.Count b' <> 0) as (b' & -> & Hb').
    { unfold next. destruct (_ <? _); eauto. }
    rewrite IH. split.
    + intros [_ [H|H]]; [contradiction|].
      split; [discriminate|]. right. now apply Exists_cons_tl.
    + intros [_ [H|H]]; [contradiction|].
      apply Exists_cons in H as [H|H]; [contradiction|].
      split; [|now right]. intros E. rewrite E in H. inversion H.
Qed.

Lemma WriteClassStat_panics_iff_loop chunk classes l sp p :
  0 <= p -> p + 3 <= len l -> len l <= max_int ->
  WriteClassStat chunk classes (at_ l sp p) = Panic DivideByZero
  <-> bestClassStat classes (html.Classes chunk) None = Panic DivideByZero.
Proof.
  intros Hp Hk Hl. unfold WriteClassStat.
  destruct (bestClassStat classes (html.Classes chunk) None) as [r|pn] eqn:E.
  - erewrite bind_Ok; [|reflexivity].
    destruct (advances_classStat r l sp p Hp Hk Hl) as (l' & E' & _).
    rewrite E'. split; discriminate.
  - erewrite bind_Panic; [|reflexivity].
    destruct (bestClassStat_cases classes (html.Classes chunk) None) as [(r & Er)|Er];
      rewrite E in Er; [discriminate|]. injection Er as ->. split; reflexivity.
Qed.

(** X10. The same-class encoder panics, with an integer division by
    zero, exactly when the chunk's classes reach at least two statistics of
    the map and one of the statistics reached has no occurrences; in every
    other case it completes. A single statistic is never divided in the
    comparison, whatever its count. *)
Theorem WriteClassStat_panics_iff chunk classes l sp p :
  0 <= p -> p + 3 <= len l -> len l <= max_int ->
  (WriteClassStat chunk classes (at_ l sp p) = Panic DivideByZero
   <-> (2 <= length (found classes (html.Classes chunk)))%nat
       /\ Exists uncounted (found classes (html.Classes chunk)))
  /\ ((exists l', WriteClassStat chunk classes (at_ l sp p) = Ok (tt, at_ l' sp (p + 3)))
      <-> ~ ((2 <= length (found classes (html.Classes chunk)))%nat
             /\ Exists uncounted (found classes (html.Classes chunk)))).
Proof.
  intros Hp Hk Hl.
  assert (bestClassStat classes (html.Classes chunk) None = Panic DivideByZero
          <-> (2 <= length (found classes (html.Classes chunk)))%nat
              /\ Exists uncounted (found classes (html.Classes chunk))) as Hloop.
  { induction (html.Classes chunk) as [|class rest IH].
    - simpl. split; [discriminate|]. intros [H _]. inversion H.
    - rewrite found_cons. simpl bestClassStat.
      destruct (classes !! class) as [stat|]; [|exact IH].
      rewrite bestClassStat_panics_from. simpl length. split.
      + intros [Hne [H|H]].
        * split; [destruct (found classes rest); [contradiction|simpl; lia]|].
          now apply Exists_cons_hd.
        * split; [destruct (found classes rest); [contradiction|simpl; lia]|].
          now apply Exists_cons_tl.
      + intros [Hlen H]. split; [destruct (found classes rest); [simpl in Hlen; lia|discriminate]|].
        apply Exists_cons in H as [H|H]; [now left|now right]. }
  pose proof (WriteClassStat_panics_iff_loop chunk classes l sp p Hp Hk Hl) as Hw.
  split; [now rewrite Hw|].
  rewrite <- Hloop, <- Hw.
  destruct (WriteClassStat_or_divides chunk classes l sp p Hp Hk Hl) as [(l' & E & _)|E].
  - split; [intros _; rewrite E; discriminate|intros _; now exists l'].
  - split; [intros (l' & E'); rewrite E in E'; discriminate|intros H; contradiction].
Qed.

Lemma WriteClassStat_panics_iff_sample :
  (exists l',
      WriteClassStat Sample.para (<["b" := html.mkTextStat 7 2 0]> Sample.classes)
        (at_ Sample.chunkVec 0 28)
      = Ok (tt, at_ l' 0 31))
  /\ WriteClassStat Sample.span (<["b" := html.mkTextStat 7 2 0]> Sample.classes)
       (at_ Sample.chunkVec 0 28)
     = Panic DivideByZero.
Proof.
  split.
  - destruct (WriteClassStat_panics_iff Sample.para
                (<["b" := html.mkTextStat 7 2 0]> Sample.classes) Sample.chunkVec 0 28)
      as [_ H]; [concrete..|].
    apply H. intros [Hlen _]. vm_compute in Hlen. lia.
  - destruct (WriteClassStat_panics_iff Sample.span
                (<["b" := html.mkTextStat 7 2 0]> Sample.classes) Sample.chunkVec 0 28)
      as [H _]; [concrete..|].
    apply H. split; [vm_compute; lia|].
    apply Exists_cons_tl, Exists_cons_hd. reflexivity.
Defined.

Lemma foldl_pick_first_max stats : forall b,
  exists pre r post,
    foldl pick (Some b) stats = Some r
    /\ b :: stats = pre ++ r :: post
    /\ (forall s, s ∈ pre -> wordsPerCount s < wordsPerCount r)
    /\ (forall s, s ∈ post -> wordsPerCount s <= wordsPerCount r).
Proof.
  induction stats as [|s stats IH]; intros b.
  - exists [], b, []. repeat split; intros s Hs; inversion Hs.
  - cbn [foldl]. unfold pick at 2.
    destruct (Z.ltb_spec (wordsPerCount b) (wordsPerCount s)) as [Hlt|Hge].
    + destruct (IH s) as (pre & r & post & E & D & Hpre & Hpost).
      exists (b :: pre), r, post. split; [exact E|]. split; [simpl; now rewrite D|].
      split; [|exact Hpost].
      assert (wordsPerCount s <= wordsPerCount r) as Hs.
      { destruct pre as [|x pre]; simpl in D; injection D as Hx _; [rewrite Hx; lia|].
        specialize (Hpre x (list_elem_of_here _ _)). rewrite Hx. lia. }
      intros x [->|Hx]%elem_of_cons; [lia|now apply Hpre].
    + destruct (IH b) as (pre & r & post & E & D & Hpre & Hpost).
      destruct pre as [|x pre]; simpl in D.
      * injection D as <- <-.
        exists [], b, (s :: stats). split; [exact E|]. split; [reflexivity|].
        split; [intros x Hx; inversion Hx|].
        intros x [->|Hx]%elem_of_cons; [lia|now apply Hpost].
      * injection D as <- ->.
        exists (b :: s :: pre), r, post. split; [exact E|]. split; [reflexivity|].
        split; [|exact Hpost].
        pose proof (Hpre b (list_elem_of_here _ _)) as Hbr.
        intros y [->|[->|Hy]%elem_of_cons]%elem_of_cons; [exact Hbr|lia|].
        apply Hpre. now apply list_elem_of_further.
Qed.

(** X11. When the statistics reached have occurrences, the class loop
    selects nothing if the chunk's classes reach no statistic, and
    otherwise the first statistic reached whose truncated integer quotient
    [Words / Count] is the largest: every statistic reached before it has a
    strictly smaller quotient, every one after it a quotient that is not
    larger. *)
Theorem bestClassStat_first_maximal classes cs :
  counted classes cs = true ->
  (found classes cs = [] /\ bestClassStat classes cs None = Ok None)
  \/ exists pre best post,
       found classes cs = pre ++ best :: post
       /\ bestClassStat classes cs None = Ok (Some best)
       /\ (forall s, s ∈ pre -> wordsPerCount s < wordsPerCount best)
       /\ (forall s, s ∈ post -> wordsPerCount s <= wordsPerCount best).
Proof.
  intros Hc. rewrite (bestClassStat_foldl classes cs None Hc) by discriminate.
  destruct (found classes cs) as [|first others]; [now left|right].
  cbn [foldl pick].
  destruct (foldl_pick_first_max others first) as (pre & r & post & E & D & Hpre & Hpost).
  exists pre, r, post. rewrite E. now repeat split.
Qed.

Lemma bestClassStat_first_maximal_sample :
  exists pre best post,
    [html.mkTextStat 3 1 2; html.mkTextStat 9 1 4; html.mkTextStat 7 2 4; html.mkTextStat 5 1 2]
    = pre ++ best :: post
    /\ bestClassStat Sample.classes4 ["a"; "x"; "c"; "b"; "d"]%string None = Ok (Some best)
    /\ (forall s, s ∈ pre -> wordsPerCount s < wordsPerCount best)
    /\ (forall s, s ∈ post -> wordsPerCount s <= wordsPerCount best).
Proof.
  assert (counted Sample.classes4 ["a"; "x"; "c"; "b"; "d"]%string = true) as Hc
    by (vm_compute; reflexivity).
  destruct (bestClassStat_first_maximal Sample.classes4 ["a"; "x"; "c"; "b"; "d"]%string Hc)
    as [[H _]|H]; [vm_compute in H; discriminate|].
  exact H.
Defined.

(** ** The cluster part and the whole boost vector *)

Section BoostPass.

Variable Score : cluster -> float32.
Variable Similarity : util.Text -> util.Text -> float32.
Variables goodQualClass poorQualClass : string -> bool.

(** X12. The cluster part of the boost vector starts with the cluster's
    aggregate score and the chunk's own score [Scores[i]], where [i] is the
    first position at which the cluster lists the chunk, also when it lists
    the chunk more than once; no slot outside the four is changed. *)
Theorem WriteCluster_own_score chunk cl (i : nat) l sp p :
  Chunks cl !! i = Some (html.Addr chunk) ->
  (forall j, (j < i)%nat -> Chunks cl !! j <> Some (html.Addr chunk)) ->
  len (Scores cl) = len (Chunks cl) -> len (Chunks cl) <= max_int ->
  0 <= p -> p + 4 <= len l -> len l <= max_int ->
  exists l' own,
    WriteCluster Score chunk cl (at_ l sp p) = Ok (tt, at_ l' sp (p + 4))
    /\ slot l' p = Some (Score cl)
    /\ Scores cl !! i = Some own
    /\ slot l' (p + 1) = Some own
    /\ forall j, j < p \/ p + 4 <= j -> slot l' j = slot l j.
Proof.
  intros Hi Hfirst Hsc Hlen Hp Hk Hl.
  destruct (WriteCluster_at Score chunk cl i l sp p Hi Hfirst Hsc Hlen Hp Hk Hl)
    as (l' & E & L & S0 & S1 & _ & _ & F).
  assert (Z.of_nat i < len (Scores cl)) as Hlt
    by (apply lookup_lt_Some in Hi; unfold len in *; lia).
  destruct (slot_is_Some (Scores cl) (Z.of_nat i)) as [own Hown]; [lia|].
  exists l', own. split; [exact E|]. split; [exact S0|].
  split; [|split; [congruence|exact F]].
  unfold slot in Hown. destruct (0 <=? Z.of_nat i); [|discriminate].
  now rewrite Nat2Z.id in Hown.
Qed.

Lemma within_WriteChunk chunk : writes_within (WriteChunk goodQualClass poorQualClass chunk) 5.
Proof.
  unfold WriteChunk. one_within 4. one_within 3. one_within 2. one_within 1.
  apply within_Write.
Qed.

Lemma within_WriteCluster chunk cl :
  html.Addr chunk ∈ Chunks cl ->
  len (Scores cl) = len (Chunks cl) -> len (Chunks cl) <= max_int ->
  writes_within (WriteCluster Score chunk cl) 4.
Proof.
  intros Hin Hsc Hlen l sp p Hp Hk Hl.
  destruct (first_position _ _ Hin) as (i & Hi & Hfirst).
  destruct (WriteCluster_at Score chunk cl i l sp p Hi Hfirst Hsc Hlen Hp Hk Hl)
    as (l' & E & L & _ & _ & _ & _ & F).
  now exists l'.
Qed.

Lemma within_WriteTitleSimilarity chunk title :
  writes_within (WriteTitleSimilarity Similarity chunk title) 1.
Proof.
  unfold WriteTitleSimilarity. destruct (isHeadline _).
  - apply within_Write.
  - apply within_Skip. lia.
Qed.

(** X13. For a chunk of the cluster (with as many scores as chunks) the
    three boost sub-encoders, run in the order the source declares them,
    take exactly the ten slots of a boost vector and change no slot
    outside them; on a writer just bound to a ten-slot vector the cursor
    ends at the capacity and the next [Assign] succeeds. *)
Theorem boostPass_fills chunk cl title :
  html.Addr chunk ∈ Chunks cl ->
  len (Scores cl) = len (Chunks cl) -> len (Chunks cl) <= max_int ->
  (forall l sp p,
      0 <= p -> p + 10 <= len l -> len l <= max_int ->
      exists l',
        (WriteChunk goodQualClass poorQualClass chunk ;;
         WriteCluster Score chunk cl ;;
         WriteTitleSimilarity Similarity chunk title) (at_ l sp p)
        = Ok (tt, at_ l' sp (p + 10))
        /\ len l' = len l
        /\ forall j, j < p \/ p + 10 <= j -> slot l' j = slot l j)
  /\ (forall v next,
         len v = boostFeatureCap ->
         exists v',
           (WriteChunk goodQualClass poorQualClass chunk ;;
            WriteCluster Score chunk cl ;;
            WriteTitleSimilarity Similarity chunk title) (at_ v 0 0)
           = Ok (tt, at_ v' 0 boostFeatureCap)
           /\ Assign next (at_ v' 0 boostFeatureCap) = Ok (tt, mkWriter next 0)).
Proof.
  intros Hin Hsc Hlen.
  assert (writes_within
            (WriteChunk goodQualClass poorQualClass chunk ;;
             WriteCluster Score chunk cl ;;
             WriteTitleSimilarity Similarity chunk title) 10) as Hw.
  { apply (within_seq _ _ 5 5); [lia | lia | apply within_WriteChunk |].
    apply (within_seq _ _ 4 1); [lia | lia | now apply within_WriteCluster |].
    apply within_WriteTitleSimilarity. }
  split; [exact Hw|].
  intros v next Hv. unfold boostFeatureCap in *.
  destruct (Hw v 0%nat 0) as (v' & E & L & _);
    [lia | lia | rewrite Hv; vm_compute; discriminate |].
  exists v'. split; [exact E|].
  apply (Assign_full _ _ (mkFeature v' 0)); [reflexivity|].
  unfold cap. simpl. lia.
Qed.

End BoostPass.

Lemma WriteCluster_own_score_sample :
  exists l',
    WriteCluster Sample.score Sample.h2 Sample.twice (at_ Sample.boostVec 0 5)
    = Ok (tt, at_ l' 0 9)
    /\ slot l' 5 = Some (F32.of_int 26)
    /\ slot l' 6 = Some (F32.of_int 6).
Proof.
  destruct (WriteCluster_own_score Sample.score Sample.h2 Sample.twice 1 Sample.boostVec 0 5)
    as (l' & own & E & S0 & Hown & S1 & _); [reflexivity | | concrete..|].
  - intros [|j] Hj; [discriminate|lia].
  - exists l'. split; [exact E|]. split; [exact S0|].
    vm_compute in Hown. injection Hown as <-. exact S1.
Defined.

Lemma boostPass_fills_sample :
  exists v',
    (WriteChunk (fun _ => false) (fun _ => true) Sample.para ;;
     WriteCluster Sample.score Sample.para Sample.four ;;
     WriteTitleSimilarity Sample.similarity Sample.para Sample.text) (at_ Sample.boostVec 0 0)
    = Ok (tt, at_ v' 0 boostFeatureCap)
    /\ Assign None (at_ v' 0 boostFeatureCap) = Ok (tt, mkWriter None 0).
Proof.
  destruct (boostPass_fills Sample.score Sample.similarity (fun _ => false) (fun _ => true)
              Sample.para Sample.four Sample.text) as [_ H]; [decided|concrete..|].
  apply H. reflexivity.
Defined.

(** ** Sibling counters and heading levels *)

Lemma occurrences_partition l :
  occurrences "a" l + occurrences "p" l + occurrences "img" l + len (otherSiblings l) = len l.
Proof.
  induction l as [|x l IH]; [reflexivity|].
  rewrite !occurrences_cons, len_cons. unfold otherSiblings in *. rewrite filter_cons.
  destruct (decide (x = "a"%string)) as [->|Ha].
  { rewrite decide_False by tauto. simpl. lia. }
  destruct (decide (x = "p"%string)) as [->|Hp].
  { rewrite decide_False by tauto. simpl. lia. }
  destruct (decide (x = "img"%string)) as [->|Hi].
  { rewrite decide_False by tauto. simpl. lia. }
  rewrite decide_True by tauto. rewrite len_cons.
  rewrite !bool_decide_eq_false_2 by assumption. lia.
Qed.

(** X14. The sibling loop counts every sibling in the total but keeps
    counters for the tags a, p and img only: the map never gets another
    key, and the three counters together with the number of siblings of
    other tags add up to the total. *)
Theorem siblingCounts_partition l :
  len l <= max_int ->
  fst (siblingCounts l) = len l
  /\ dom (snd (siblingCounts l)) = ({["a"; "p"; "img"]}%string : gset string)
  /\ (forall t, t <> "a"%string -> t <> "p"%string -> t <> "img"%string ->
        snd (siblingCounts l) !! t = None)
  /\ map_index (snd (siblingCounts l)) "a" + map_index (snd (siblingCounts l)) "p"
     + map_index (snd (siblingCounts l)) "img" + len (otherSiblings l)
     = fst (siblingCounts l).
Proof.
  intros Hl. rewrite (siblingCounts_spec l Hl). simpl fst. simpl snd.
  split; [reflexivity|]. split; [|split].
  - unfold typesOf. simpl. rewrite !dom_insert_L, dom_empty_L. set_solver.
  - intros t Ha Hp Hi. unfold typesOf. simpl.
    rewrite !lookup_insert_ne by congruence. apply lookup_empty.
  - destruct (map_index_typesOf (occurrences "a" l) (occurrences "p" l) (occurrences "img" l))
      as (-> & -> & ->).
    apply occurrences_partition.
Qed.

Lemma siblingCounts_partition_sample :
  fst (siblingCounts ["a"; "p"; "a"; "br"]%string) = 4
  /\ snd (siblingCounts ["a"; "p"; "a"; "br"]%string) !! "br"%string = None
  /\ map_index (snd (siblingCounts ["a"; "p"; "a"; "br"]%string)) "a" = 2.
Proof.
  destruct (siblingCounts_partition ["a"; "p"; "a"; "br"]%string ltac:(concrete))
    as (H1 & _ & H3 & _).
  split; [exact H1|]. split; [apply H3; discriminate|reflexivity].
Defined.

Lemma headings_offset (tag : string) : tag ∈ headings -> map_index elementTypes tag = 3.
Proof.
  unfold headings. intros H.
  repeat (apply elem_of_cons in H as [->|H]; [vm_compute; reflexivity|]).
  inversion H.
Qed.

(** X15. The six heading levels share one slot: for a chunk whose tag is
    one of h1 to h6 the element type sets the slot at offset 3 and no
    other, so two heading chunks of different levels are encoded alike, on
    every writer. *)
Theorem WriteElementType_headings c1 c2 :
  html.Data (html.Base c1) ∈ headings -> html.Data (html.Base c2) ∈ headings ->
  (forall fw, WriteElementType c1 fw = WriteElementType c2 fw)
  /\ (forall l sp p,
         0 <= p -> p + 4 <= len l -> len l <= max_int ->
         exists l',
           WriteElementType c1 (at_ l sp p) = Ok (tt, at_ l' sp (p + 4))
           /\ slot l' (p + 3) = Some F32.one
           /\ forall j, j <> p + 3 -> slot l' j = slot l j).
Proof.
  intros H1 H2. split.
  - intros fw. unfold WriteElementType.
    now rewrite (headings_offset _ H1), (headings_offset _ H2).
  - intros l sp p Hp Hk Hl. eexists. split; [now apply WriteElementType_at|].
    rewrite (headings_offset _ H1). split; [|intros j Hj]; slots.
Qed.

Lemma WriteElementType_headings_sample :
  WriteElementType (Sample.chunk 1 "h1" None [] []) (at_ Sample.chunkVec 0 0)
  = WriteElementType (Sample.chunk 1 "h6" None [] []) (at_ Sample.chunkVec 0 0).
Proof.
  apply (proj1 (WriteElementType_headings (Sample.chunk 1 "h1" None [] [])
                  (Sample.chunk 1 "h6" None [] []) ltac:(decided) ltac:(decided))).
Defined.

(** ** Where the chunk vector keeps what *)

Lemma slot_seq_l m1 m2 k1 k2 d v :
  0 <= k1 -> 0 <= k2 -> 0 <= d < k1 ->
  writes_slot m1 k1 d v -> writes_within m2 k2 -> writes_slot (m1 ;; m2) (k1 + k2) d v.
Proof.
  intros Hk1 Hk2 Hd H1 H2 l sp p Hp Hk Hl.
  destruct (H1 l sp p) as (l1 & E1 & L1 & S1 & F1); [lia..|].
  destruct (H2 l1 sp (p + k1)) as (l2 & E2 & L2 & F2); [lia..|].
  exists l2. split; [|split; [congruence|split]].
  - rewrite (bind_Ok _ _ _ _ _ E1), E2. now rewrite Z.add_assoc.
  - rewrite F2 by lia. exact S1.
  - intros j Hj. rewrite F2 by lia. apply F1. lia.
Qed.

Lemma slot_seq_r m1 m2 k1 k2 d v :
  0 <= k1 -> 0 <= k2 -> 0 <= d < k2 ->
  writes_within m1 k1 -> writes_slot m2 k2 d v -> writes_slot (m1 ;; m2) (k1 + k2) (k1 + d) v.
Proof.
  intros Hk1 Hk2 Hd H1 H2 l sp p Hp Hk Hl.
  destruct (H1 l sp p) as (l1 & E1 & L1 & F1); [lia..|].
  destruct (H2 l1 sp (p + k1)) as (l2 & E2 & L2 & S2 & F2); [lia..|].
  exists l2. split; [|split; [congruence|split]].
  - rewrite (bind_Ok _ _ _ _ _ E1), E2. now rewrite Z.add_assoc.
  - rewrite Z.add_assoc. exact S2.
  - intros j Hj. rewrite F2 by lia. apply F1. lia.
Qed.

Lemma slot_Write_head val m k :
  val <> VOther -> 0 <= k -> writes_within m k ->
  writes_slot (Write val ;; m) (1 + k) 0 (store val F32.zero).
Proof.
  intros Hv Hk Hm l sp p Hp Hr Hl.
  destruct (Hm (put l p val) sp (p + 1)) as (l' & E & L & F);
    [lia | rewrite len_put; lia | rewrite len_put; lia |].
  exists l'. split; [|split; [now rewrite L, len_put|split]].
  - rewrite (bind_Ok _ _ _ _ _ (Write_at l sp p val ltac:(lia) Hl)), E.
    now rewrite Z.add_assoc.
  - rewrite Z.add_0_r, F by lia. apply slot_put_eq; (lia || assumption).
  - intros j Hj. rewrite F by lia. apply slot_put_ne; lia.
Qed.

Lemma slot_WriteSiblingTypes_total chunk :
  writes_slot (WriteSiblingTypes chunk) 7 0 (F32.of_int (fst (siblingCounts (html.SiblingTypes chunk)))).
Proof.
  unfold WriteSiblingTypes. destruct (siblingCounts _) as [count types]. simpl fst.
  apply (slot_Write_head (VInt count) _ 6); [discriminate|lia|].
  one_within 5. one_within 4. one_within 3.
  destruct (0 <? count).
  - one_within 2. one_within 1. apply within_Write.
  - apply within_Skip. lia.
Qed.

Lemma slot_WriteTextStat_words chunk :
  writes_slot (WriteTextStat chunk) 3 0 (F32.of_int (util.Words (html.Text chunk))).
Proof.
  unfold WriteTextStat.
  apply (slot_Write_head (VInt _) _ 2); [discriminate|lia|].
  one_within 1. apply within_Write.
Qed.

Lemma slot_WriteTextStat_sentences chunk :
  writes_slot (WriteTextStat chunk) 3 1 (F32.of_int (util.Sentences (html.Text chunk))).
Proof.
  unfold WriteTextStat.
  apply (slot_seq_r _ _ 1 2 0); [lia | lia | lia | apply within_Write |].
  apply (slot_Write_head (VInt _) _ 1); [discriminate|lia|apply within_Write].
Qed.

Lemma slot_WriteClassStat_presence chunk classes :
  counted classes (html.Classes chunk) = true ->
  writes_slot (WriteClassStat chunk classes) 3 0
    (flag (negb (bool_decide (found classes (html.Classes chunk) = [])))).
Proof.
  intros Hc l sp p Hp Hk Hl. unfold WriteClassStat.
  erewrite bind_Ok;
    [|unfold lift; rewrite (bestClassStat_foldl classes _ None Hc) by discriminate; reflexivity].
  destruct (found classes (html.Classes chunk)) as [|first others].
  - simpl foldl. rewrite bool_decide_eq_true_2 by reflexivity.
    now apply (slot_Write_head (VBool false) (Skip 2) 2); [discriminate|lia|apply within_Skip; lia|..].
  - cbn [foldl pick]. destruct (foldl_pick_max others first) as (r & -> & _).
    rewrite bool_decide_eq_false_2 by discriminate.
    apply (slot_Write_head (VBool true) _ 2); [discriminate|lia| |assumption..].
    one_within 1. apply within_Write.
Qed.

Section ChunkLayoutSlots.

Variables AncestorArticle AncestorAside AncestorBlockquote AncestorList : Z.

#[local] Abbreviation pass :=
  (chunkPass AncestorArticle AncestorAside AncestorBlockquote AncestorList).

Lemma within_tail chunk classes clusters :
  counted classes (html.Classes chunk) = true ->
  writes_within (WriteTextStatSiblings chunk ;; WriteClassStat chunk classes ;;
                 WriteClusterStat chunk clusters) 14.
Proof.
  intros Hc.
  apply (within_seq _ _ 6 8); [lia | lia | apply within_WriteTextStatSiblings |].
  apply (within_seq _ _ 3 5); [lia | lia | now apply within_WriteClassStat |].
  apply within_WriteClusterStat.
Qed.

Lemma slot_pass_siblings chunk classes clusters :
  counted classes (html.Classes chunk) = true ->
  writes_slot (pass chunk classes clusters) 36 8
    (F32.of_int (fst (siblingCounts (html.SiblingTypes chunk)))).
Proof.
  intros Hc. unfold chunkPass.
  apply (slot_seq_r _ _ 4 32 4); [lia | lia | lia | apply within_WriteElementType |].
  apply (slot_seq_r _ _ 4 28 0); [lia | lia | lia | apply within_WriteParentType |].
  apply (slot_seq_l _ _ 7 21 0); [lia | lia | lia | apply slot_WriteSiblingTypes_total |].
  apply (within_seq _ _ 4 17); [lia | lia | apply within_WriteAncestors |].
  apply (within_seq _ _ 3 14); [lia | lia | apply within_WriteTextStat |].
  now apply within_tail.
Qed.

Lemma slot_pass_text chunk classes clusters d v :
  counted classes (html.Classes chunk) = true ->
  0 <= d < 3 -> writes_slot (WriteTextStat chunk) 3 d v ->
  writes_slot (pass chunk classes clusters) 36 (19 + d) v.
Proof.
  intros Hc Hd Hs. unfold chunkPass.
  replace (19 + d) with (4 + (4 + (7 + (4 + d)))) by lia.
  apply (slot_seq_r _ _ 4 32 (4 + (7 + (4 + d))));
    [lia | lia | lia | apply within_WriteElementType |].
  apply (slot_seq_r _ _ 4 28 (7 + (4 + d))); [lia | lia | lia | apply within_WriteParentType |].
  apply (slot_seq_r _ _ 7 21 (4 + d)); [lia | lia | lia | apply within_WriteSiblingTypes |].
  apply (slot_seq_r _ _ 4 17 d); [lia | lia | lia | apply within_WriteAncestors |].
  apply (slot_seq_l _ _ 3 14 d); [lia | lia | lia | exact Hs |].
  now apply within_tail.
Qed.

Lemma slot_pass_class chunk classes clusters :
  counted classes (html.Classes chunk) = true ->
  writes_slot (pass chunk classes clusters) 36 28
    (flag (negb (bool_decide (found classes (html.Classes chunk) = [])))).
Proof.
  intros Hc. unfold chunkPass.
  apply (slot_seq_r _ _ 4 32 24); [lia | lia | lia | apply within_WriteElementType |].
  apply (slot_seq_r _ _ 4 28 20); [lia | lia | lia | apply within_WriteParentType |].
  apply (slot_seq_r _ _ 7 21 13); [lia | lia | lia | apply within_WriteSiblingTypes |].
  apply (slot_seq_r _ _ 4 17 9); [lia | lia | lia | apply within_WriteAncestors |].
  apply (slot_seq_r _ _ 3 14 6); [lia | lia | lia | apply within_WriteTextStat |].
  apply (slot_seq_r _ _ 6 8 0); [lia | lia | lia | apply within_WriteTextStatSiblings |].
  apply (slot_seq_l _ _ 3 5 0); [lia | lia | lia | now apply slot_WriteClassStat_presence |].
  apply within_WriteClusterStat.
Qed.

(** X16. The layout of the chunk vector does not depend on the branches
    taken before a slot: after a pass from cursor [p], whatever the chunk's
    tag, parent, siblings and neighbours, slot [p + 8] holds the number of
    siblings, slots [p + 19] and [p + 20] the chunk's word and sentence
    counts, and slot [p + 28] the class flag, 1.0 when one of the chunk's
    classes has a statistic and 0.0 when none has. *)
Theorem chunkPass_layout chunk classes clusters l sp p :
  counted classes (html.Classes chunk) = true ->
  len (html.SiblingTypes chunk) <= max_int ->
  0 <= p -> p + 36 <= len l -> len l <= max_int ->
  exists l',
    pass chunk classes clusters (at_ l sp p) = Ok (tt, at_ l' sp (p + 36))
    /\ slot l' (p + 8) = Some (F32.of_int (len (html.SiblingTypes chunk)))
    /\ slot l' (p + 19) = Some (F32.of_int (util.Words (html.Text chunk)))
    /\ slot l' (p + 20) = Some (F32.of_int (util.Sentences (html.Text chunk)))
    /\ slot l' (p + 28)
       = Some (flag (negb (bool_decide (found classes (html.Classes chunk) = [])))).
Proof.
  intros Hc Hn Hp Hk Hl.
  destruct (slot_pass_siblings chunk classes clusters Hc l sp p Hp Hk Hl)
    as (l' & E & _ & S8 & _).
  destruct (slot_pass_text chunk classes clusters 0 _ Hc ltac:(lia)
              (slot_WriteTextStat_words chunk) l sp p Hp Hk Hl) as (l1 & E1 & _ & S19 & _).
  destruct (slot_pass_text chunk classes clusters 1 _ Hc ltac:(lia)
              (slot_WriteTextStat_sentences chunk) l sp p Hp Hk Hl) as (l2 & E2 & _ & S20 & _).
  destruct (slot_pass_class chunk classes clusters Hc l sp p Hp Hk Hl)
    as (l3 & E3 & _ & S28 & _).
  rewrite E in E1, E2, E3.
  injection E1 as <-. injection E2 as <-. injection E3 as <-.
  exists l'. split; [exact E|].
  rewrite (siblingCounts_spec _ Hn) in S8. simpl fst in S8.
  replace (p + (19 + 0)) with (p + 19) in S19 by lia.
  replace (p + (19 + 1)) with (p + 20) in S20 by lia.
  now repeat split.
Qed.

End ChunkLayoutSlots.

Lemma chunkPass_layout_sample :
  exists l',
    chunkPass 1 2 4 8 Sample.para Sample.classes Sample.clusters (at_ Sample.chunkVec 0 0)
    = Ok (tt, at_ l' 0 36)
    /\ slot l' 8 = Some (F32.of_int 4)
    /\ slot l' 19 = Some (F32.of_int 3)
    /\ slot l' 20 = Some (F32.of_int 1)
    /\ slot l' 28 = Some F32.one.
Proof.
  destruct (chunkPass_layout 1 2 4 8 Sample.para Sample.classes Sample.clusters
              Sample.chunkVec 0 0) as (l' & E & S8 & S19 & S20 & S28); [concrete..|].
  exists l'. repeat split; assumption.
Defined.

(** ** The type tables and the position search *)

(** X17. For a chunk whose parent is a p, span, div or li element the
    parent type sets the slot at offset 0, 1, 2 or 3 and no other; for a
    chunk without parent it writes nothing and only moves the cursor. *)
Theorem WriteParentType_table chunk l sp p :
  0 <= p -> p + 4 <= len l -> len l <= max_int ->
  (html.Parent (html.Base chunk) = None ->
   WriteParentType chunk (at_ l sp p) = Ok (tt, at_ l sp (p + 4)))
  /\ (forall parent k,
         html.Parent (html.Base chunk) = Some parent ->
         (html.Data parent, k) ∈ [("p", 0); ("span", 1); ("div", 2); ("li", 3)]%string ->
         exists l',
           WriteParentType chunk (at_ l sp p) = Ok (tt, at_ l' sp (p + 4))
           /\ slot l' (p + k) = Some F32.one
           /\ forall j, j <> p + k -> slot l' j = slot l j).
Proof.
  intros Hp Hk Hl. split.
  - intros E. now apply WriteParentType_orphan.
  - intros parent k E Hin.
    apply (WriteParentType_recognised chunk parent l sp p k E); [|assumption..].
    repeat (apply elem_of_cons in Hin as [[= -> ->]|Hin]; [vm_compute; reflexivity|]).
    inversion Hin.
Qed.

Lemma WriteParentType_table_sample :
  exists l',
    WriteParentType (Sample.chunk 6 "a" (Some "li"%string) [] []) (at_ Sample.chunkVec 0 4)
    = Ok (tt, at_ l' 0 8)
    /\ slot l' 7 = Some F32.one
    /\ slot l' 4 = Some F32.zero.
Proof.
  destruct (WriteParentType_table (Sample.chunk 6 "a" (Some "li"%string) [] [])
              Sample.chunkVec 0 4) as [_ H]; [concrete..|].
  destruct (H (html.mkNode "li" None) 3 eq_refl ltac:(decided)) as (l' & E & S & F).
  exists l'. split; [exact E|]. split; [exact S|].
  rewrite (F 4); [reflexivity|discriminate].
Defined.

(** X18. For a chunk whose tag is p, a or div the element type sets the
    slot at offset 0, 1 or 2 and no other. *)
Theorem WriteElementType_table chunk k l sp p :
  (html.Data (html.Base chunk), k) ∈ [("p", 0); ("a", 1); ("div", 2)]%string ->
  0 <= p -> p + 4 <= len l -> len l <= max_int ->
  exists l',
    WriteElementType chunk (at_ l sp p) = Ok (tt, at_ l' sp (p + 4))
    /\ slot l' (p + k) = Some F32.one
    /\ forall j, j <> p + k -> slot l' j = slot l j.
Proof.
  intros Hin Hp Hk Hl.
  apply (WriteElementType_recognised chunk l sp p k); [|assumption..].
  repeat (apply elem_of_cons in Hin as [[= -> ->]|Hin]; [vm_compute; reflexivity|]).
  inversion Hin.
Qed.

Lemma WriteElementType_table_sample :
  exists l',
    WriteElementType (Sample.chunk 6 "a" (Some "li"%string) [] []) (at_ Sample.chunkVec 0 0)
    = Ok (tt, at_ l' 0 4)
    /\ slot l' 1 = Some F32.one
    /\ slot l' 0 = Some F32.zero.
Proof.
  destruct (WriteElementType_table (Sample.chunk 6 "a" (Some "li"%string) [] []) 1
              Sample.chunkVec 0 0) as (l' & E & S & F); [decided|concrete..|].
  exists l'. split; [exact E|]. split; [exact S|].
  rewrite (F 0); [reflexivity|discriminate].
Defined.

(** X19. The position search returns an index between 0 and
    [len(Chunks)]: the first position that holds the chunk when there is
    one, and [len(Chunks)] exactly when the chunk is not in the list. *)
Theorem findChunk_position chunks a :
  len chunks <= max_int ->
  0 <= findChunk chunks a 0 <= len chunks
  /\ (findChunk chunks a 0 = len chunks <-> a ∉ chunks)
  /\ (forall i, chunks !! i = Some a ->
        (forall j, (j < i)%nat -> chunks !! j <> Some a) ->
        findChunk chunks a 0 = Z.of_nat i).
Proof.
  intros Hlen. pose proof (len_nonneg chunks).
  assert (forall i, chunks !! i = Some a ->
            (forall j, (j < i)%nat -> chunks !! j <> Some a) ->
            findChunk chunks a 0 = Z.of_nat i) as Hfound.
  { intros i Hi Hfirst. rewrite (findChunk_found chunks a i 0 Hi Hfirst) by lia. lia. }
  destruct (decide (a ∈ chunks)) as [Hin|Hnot].
  - destruct (first_position _ _ Hin) as (i & Hi & Hfirst).
    pose proof (Hfound i Hi Hfirst) as E.
    assert (Z.of_nat i < len chunks) by (apply lookup_lt_Some in Hi; unfold len; lia).
    split; [lia|]. split; [|exact Hfound].
    split; [lia|contradiction].
  - pose proof (findChunk_missing chunks a 0 Hnot ltac:(lia) ltac:(lia)) as E.
    split; [lia|]. split; [|exact Hfound].
    split; [now intros _|lia].
Qed.

Lemma findChunk_position_sample :
  findChunk [2; 1; 3; 1]%positive 1 0 = 1 /\ findChunk [2; 1; 3; 1]%positive 7 0 = 4.
Proof.
  destruct (findChunk_position [2; 1; 3; 1]%positive 1 ltac:(concrete)) as (_ & _ & H1).
  destruct (findChunk_position [2; 1; 3; 1]%positive 7 ltac:(concrete)) as (_ & H2 & _).
  split.
  - apply (H1 1%nat); [reflexivity|]. intros [|j] Hj; [discriminate|lia].
  - apply H2. decided.
Defined.
